(** * Canvas assignment synchronisation plugin: a shallow embedding of
    [src/main.ts] and the properties of its pagination, course filter,
    name normaliser, fingerprint and reconciliation loop. *)

From Stdlib Require Import Ascii String NArith Lia DecimalString DecimalN DecimalNat.
From stdpp Require Import gmap strings list.

Local Open Scope list_scope.

(** ** Strings

    A JavaScript string is a sequence of UTF-16 code units.  The embedding
    keeps the code units below 256 (the Latin-1 range), one [ascii] each, on
    which every character test of the program is written out exactly. *)

Definition str : Type := list ascii.

Definition lit (s : string) : str := list_ascii_of_string s.

Definition code (c : ascii) : N := N_of_ascii c.

Definition in_range (lo hi : N) (c : ascii) : bool :=
  ((lo <=? code c) && (code c <=? hi))%N.

Definition chr (a : ascii) (c : ascii) : bool := Ascii.eqb a c.

Definition dquote : ascii := ascii_of_N 34.

(** [\d], [[0-9]] *)
Definition digit : ascii -> bool := in_range 48 57.

(** [[A-Z]] *)
Definition upper : ascii -> bool := in_range 65 90.

(** Line terminators: LF and CR (U+2028 and U+2029 lie outside the range). *)
Definition lineTerminator (c : ascii) : bool :=
  ((code c =? 10) || (code c =? 13))%N.

(** [.] without the [s] flag: every code unit but a line terminator. *)
Definition dot (c : ascii) : bool := negb (lineTerminator c).

(** [\s], also the set [trim] strips: TAB, LF, VT, FF, CR, SP and NBSP. *)
Definition space (c : ascii) : bool :=
  (in_range 9 13 c || (code c =? 32) || (code c =? 160))%N.

(** [[\s\S]] *)
Definition any (c : ascii) : bool := space c || negb (space c).

(** [String.prototype.toLowerCase] on one code unit: A-Z, and the Latin-1
    capitals U+00C0..U+00DE but the multiplication sign U+00D7. *)
Definition lowerChar (c : ascii) : ascii :=
  if (in_range 65 90 c || (in_range 192 222 c && negb (code c =? 215)%N))
  then ascii_of_N (code c + 32) else c.

Definition toLowerCase (s : str) : str := map lowerChar s.

(** [String.prototype.includes] *)
Fixpoint startsWith (p s : str) : bool :=
  match p, s with
  | [], _ => true
  | _ :: _, [] => false
  | a :: p', c :: s' => Ascii.eqb a c && startsWith p' s'
  end.

Fixpoint includes (s p : str) : bool :=
  startsWith p s || match s with [] => false | _ :: t => includes t p end.

(** ** Regular expressions

    The patterns of the program are concatenations of single character
    classes, possibly under a star, and end anchors.  [exec] follows the
    backtracking order of the ECMAScript matcher and returns what is left of
    the input after the match. *)

Inductive re_item : Type :=
| One (p : ascii -> bool)          (* a class, a literal character *)
| LazyStar (p : ascii -> bool)     (* p*? *)
| GreedyStar (p : ascii -> bool)   (* p* *)
| EndInput                         (* $ *)
| EndLine.                         (* $ under the m flag *)

Definition regex : Type := list re_item.

Fixpoint lazy_star (p : ascii -> bool) (k : str -> option str) (s : str)
  : option str :=
  match k s with
  | Some rest => Some rest
  | None =>
      match s with
      | c :: t => if p c then lazy_star p k t else None
      | [] => None
      end
  end.

Fixpoint greedy_star (p : ascii -> bool) (k : str -> option str) (s : str)
  : option str :=
  match s with
  | c :: t =>
      if p c then
        match greedy_star p k t with
        | Some rest => Some rest
        | None => k s
        end
      else k s
  | [] => k s
  end.

Fixpoint exec (r : regex) (s : str) {struct r} : option str :=
  match r with
  | [] => Some s
  | One p :: r' =>
      match s with
      | c :: t => if p c then exec r' t else None
      | [] => None
      end
  | LazyStar p :: r' => lazy_star p (exec r') s
  | GreedyStar p :: r' => greedy_star p (exec r') s
  | EndInput :: r' =>
      match s with
      | [] => exec r' s
      | _ :: _ => None
      end
  | EndLine :: r' =>
      match s with
      | [] => exec r' s
      | c :: _ => if lineTerminator c then exec r' s else None
      end
  end.

(** [p{n}], [p+] and a literal text as patterns. *)
Definition times (n : nat) (p : ascii -> bool) : regex := repeat (One p) n.
Definition plus (p : ascii -> bool) : regex := [One p; GreedyStar p].
Definition text (s : string) : regex := map (fun a => One (chr a)) (lit s).

(** GetSubstitution for a pattern without capture groups: [$$], [$&],
    [$`] and [$'] are expanded, every other [$] stands for itself. *)
Fixpoint GetSubstitution (matched before after template : str) : str :=
  match template with
  | [] => []
  | c :: t =>
      if chr "$" c then
        match t with
        | d :: t' =>
            if chr "$" d then "$"%char :: GetSubstitution matched before after t'
            else if chr "&" d then matched ++ GetSubstitution matched before after t'
            else if chr "`" d then before ++ GetSubstitution matched before after t'
            else if chr "'" d then after ++ GetSubstitution matched before after t'
            else c :: GetSubstitution matched before after t
        | [] => [c]
        end
      else c :: GetSubstitution matched before after t
  end.

(** The first match, scanning start positions from the left: the text
    before it, the matched text and the text after it. *)
Fixpoint search (r : regex) (s : str) : option (str * str * str) :=
  match exec r s with
  | Some rest => Some ([], take (length s - length rest) s, rest)
  | None =>
      match s with
      | [] => None
      | c :: t =>
          match search r t with
          | Some (b, m, a) => Some (c :: b, m, a)
          | None => None
          end
      end
  end.

(** [s.replace(r, template)] for a pattern without the g flag. *)
Definition replace (r : regex) (template s : str) : str :=
  match search r s with
  | Some (b, m, a) => b ++ GetSubstitution m b a template ++ a
  | None => s
  end.

(** [s.replace(r, template)] for a pattern with the g flag.  [seen] is the
    input already passed (reversed) and [skip] the number of code units of
    the last match still to pass; after an empty match the scan advances by
    one code unit. *)
Fixpoint replace_from (r : regex) (template : str) (seen : str) (skip : nat)
  (s : str) : str :=
  match skip with
  | S k =>
      match s with
      | [] => []
      | c :: t => replace_from r template (c :: seen) k t
      end
  | 0 =>
      match exec r s with
      | Some rest =>
          let n := length s - length rest in
          let out := GetSubstitution (take n s) (rev seen) rest template in
          match s with
          | [] => out
          | c :: t =>
              match n with
              | 0 => out ++ c :: replace_from r template (c :: seen) 0 t
              | S k => out ++ replace_from r template (c :: seen) k t
              end
          end
      | None =>
          match s with
          | [] => []
          | c :: t => c :: replace_from r template (c :: seen) 0 t
          end
      end
  end.

Definition replaceAll (r : regex) (template s : str) : str :=
  replace_from r template [] 0 s.

(** [String.prototype.trim] *)
Fixpoint trimStart (s : str) : str :=
  match s with
  | c :: t => if space c then trimStart t else s
  | [] => []
  end.

Definition trimEnd (s : str) : str := rev (trimStart (rev s)).

Definition trim (s : str) : str := trimEnd (trimStart s).

(** ** Name normaliser: [cleanAssignmentName] (main.ts 288-296) *)

(** [/\[.*?\]/g] *)
Definition re_tag : regex := [One (chr "["); LazyStar dot; One (chr "]")].

(** [/-[A-Z]{3}[0-9]{3}-/g] *)
Definition re_course : regex :=
  [One (chr "-")] ++ times 3 upper ++ times 3 (in_range 48 57) ++ [One (chr "-")].

(** [/\d{4}-\d{2}-\d{2}/] *)
Definition re_date : regex :=
  times 4 digit ++ [One (chr "-")] ++ times 2 digit ++ [One (chr "-")]
  ++ times 2 digit.

(** The class of [/[...]/g] at main.ts 292: star, double quote, backslash,
    slash, angle brackets, colon, bar and question mark. *)
Definition illegal (c : ascii) : bool :=
  chr "*" c || chr dquote c || chr "\" c || chr "/" c || chr "<" c || chr ">" c
  || chr ":" c || chr "|" c || chr "?" c.

Definition re_illegal : regex := [One illegal].

(** [/\s+/g] *)
Definition re_spaces : regex := plus space.

Definition cleanAssignmentName (name : str) : str :=
  let name := replaceAll re_tag [] name in
  let name := replaceAll re_course [] name in
  let name := replace re_date [] name in
  let name := trim (replaceAll re_spaces (lit " ")
                      (replaceAll re_illegal [] name)) in
  name.

(** ** Data model (main.ts 4-46) *)

Record CanvasAssignmentProcessorSettings : Type := {
  canvasToken : str;
  canvasApiBase : str;
  templatePath : str;
  semester : str;
  year : str
}.

(** [term] is the name of the optional [term] object. *)
Record CanvasCourse : Type := {
  c_id : N;
  c_name : str;
  c_course_code : str;
  c_term : option str
}.

Definition DEFAULT_SETTINGS : CanvasAssignmentProcessorSettings :=
  {| canvasToken := [];
     canvasApiBase := lit "https://canvas.instructure.com/api/v1";
     templatePath := lit "Templates/Assignment.md";
     semester := lit "Spring";
     year := lit "2025" |}.

(** ** Course filter: [isCurrentSemesterCourse] (main.ts 234-246) *)

Definition termName (course : CanvasCourse) : str :=
  match c_term course with
  | Some n => toLowerCase n
  | None => []
  end.

Definition isCurrentSemesterCourse
  (settings : CanvasAssignmentProcessorSettings) (course : CanvasCourse) : bool :=
  let courseName := toLowerCase (c_name course) in
  let courseCode := toLowerCase (c_course_code course) in
  let termName := termName course in
  let sem := toLowerCase (semester settings) in
  let semesterYear := sem ++ lit " " ++ year settings in
  includes courseName semesterYear
  || includes courseCode (year settings ++ sem)
  || includes courseCode (year settings ++ sem ++ lit "c")
  || (includes courseCode sem && includes courseCode (year settings))
  || includes termName (year settings ++ lit " " ++ sem).

(** A field contains a token when it does so up to letter case. *)
Definition containsToken (field token : str) : bool :=
  includes (toLowerCase field) (toLowerCase token).

Definition mentionsToken (course : CanvasCourse) (token : str) : bool :=
  containsToken (c_name course) token
  || containsToken (c_course_code course) token
  || containsToken (default [] (c_term course)) token.

(** JavaScript numbers met by the program are finite; all the program does
    with one is to print it, in a template or under [JSON.stringify].  The
    printed form consists of digits, a point, a sign and an exponent mark, and
    distinct numbers print differently. *)
Definition numeric (c : ascii) : bool :=
  digit c || chr "." c || chr "e" c || chr "+" c || chr "-" c.

Class JSNumber (num : Type) : Type := {
  numberToString : num -> str;
  numberToString_inj : forall a b : num,
    numberToString a = numberToString b -> a = b;
  numberToString_numeric : forall a : num,
    forallb numeric (numberToString a) = true
}.

Record CanvasAssignment (num : Type) : Type := {
  a_id : N;
  a_name : str;
  a_description : str;
  a_html_url : str;
  a_points_possible : num;
  a_due_at : option str;
  a_course_code : str;
  a_course_name : str;
  a_course : str
}.

Arguments a_id {num} _.
Arguments a_name {num} _.
Arguments a_description {num} _.
Arguments a_html_url {num} _.
Arguments a_points_possible {num} _.
Arguments a_due_at {num} _.
Arguments a_course_code {num} _.
Arguments a_course_name {num} _.
Arguments a_course {num} _.

(** Integers in decimal, as [page], [course.id] and whole point values print. *)
Definition showNat (n : nat) : str := lit (NilEmpty.string_of_uint (Nat.to_uint n)).
Definition showN (n : N) : str := lit (NilEmpty.string_of_uint (N.to_uint n)).

(** ** Remote data fetcher (main.ts 97-151)

    [makeRequest] either throws or yields the JSON body of the response, which
    is an array of items or something else.  The remote side is a state [Net]
    that every request may change; [requests] logs the URLs asked for. *)

Inductive response (T : Type) : Type :=
| Throw
| NotArray
| Items (data : list T).

Arguments Throw {T}.
Arguments NotArray {T}.
Arguments Items {T} data.

Record world (Net : Type) : Type := {
  net : Net;
  requests : list str
}.

Arguments net {Net} _.
Arguments requests {Net} _.

Definition pageUrl (baseUrl : str) (page : nat) : str :=
  baseUrl ++ (if includes baseUrl (lit "?") then lit "&" else lit "?")
  ++ lit "page=" ++ showNat page ++ lit "&per_page=100".

Section Fetcher.
Context {Net T : Type}.
Variable makeRequest : str -> Net -> response T * Net.

(** One turn of the [while (hasMore)] loop: the new [allData], [page] and
    [hasMore]. *)
Definition page_turn (resp : response T) (allData : list T) (page : nat)
  : list T * nat * bool :=
  match resp with
  | Items data =>
      let '(allData1, page1, hasMore1) :=
        if 0 <? length data then (allData ++ data, S page, true)
        else (allData, page, false) in
      (allData1, page1, if length data <? 100 then false else hasMore1)
  | NotArray => (allData, page, false)
  | Throw => (allData, page, false)
  end.

(** The loop runs as long as the remote side keeps sending full pages;
    [fuel] bounds the number of turns and [None] means it ran out. *)
Fixpoint getAllPages_loop (fuel : nat) (baseUrl : str) (allData : list T)
  (page : nat) (w : world Net) : option (list T * world Net) :=
  match fuel with
  | 0 => None
  | S fuel' =>
      let url := pageUrl baseUrl page in
      let '(resp, n') := makeRequest url (net w) in
      let w' := {| net := n'; requests := requests w ++ [url] |} in
      let '(allData', page', hasMore) := page_turn resp allData page in
      if hasMore then getAllPages_loop fuel' baseUrl allData' page' w'
      else Some (allData', w')
  end.

Definition getAllPages (fuel : nat) (baseUrl : str) (w : world Net)
  : option (list T * world Net) :=
  getAllPages_loop fuel baseUrl [] 1 w.

(** The remote side, asked for the pages [page], [page+1], ... of [baseUrl]
    from the state [n], sends the pages [ps] and then answers [last]. *)
Inductive serves (baseUrl : str)
  : nat -> Net -> list (list T) -> response T -> Net -> Prop :=
| serves_last page n last n' :
    makeRequest (pageUrl baseUrl page) n = (last, n') ->
    serves baseUrl page n [] last n'
| serves_page page n p n1 ps last n' :
    makeRequest (pageUrl baseUrl page) n = (Items p, n1) ->
    serves baseUrl (S page) n1 ps last n' ->
    serves baseUrl page n (p :: ps) last n'.
End Fetcher.

(** ** Assignment fetch (main.ts 248-286) *)

(** [/([A-Z]{3}[0-9]{3})/] *)
Definition re_subject : regex := times 3 upper ++ times 3 (in_range 48 57).

Definition courseKey (course_code : str) : str :=
  match search re_subject course_code with
  | Some (_, m, _) => m
  | None => course_code
  end.

Definition coursesUrl (settings : CanvasAssignmentProcessorSettings) : str :=
  canvasApiBase settings ++ lit "/courses?include[]=term&enrollment_state=active".

Definition assignmentsUrl (settings : CanvasAssignmentProcessorSettings)
  (course : CanvasCourse) : str :=
  canvasApiBase settings ++ lit "/courses/" ++ showN (c_id course)
  ++ lit "/assignments?include[]=submission".

Section Fetch.
Context {Net num : Type}.
(** [makeRequest] at its two types. *)
Variable requestCourses : str -> Net -> response CanvasCourse * Net.
Variable requestAssignments : str -> Net -> response (CanvasAssignment num) * Net.
Variable settings : CanvasAssignmentProcessorSettings.

Definition annotate (course : CanvasCourse) (assignment : CanvasAssignment num)
  : CanvasAssignment num :=
  {| a_id := a_id assignment;
     a_name := a_name assignment;
     a_description := a_description assignment;
     a_html_url := a_html_url assignment;
     a_points_possible := a_points_possible assignment;
     a_due_at := a_due_at assignment;
     a_course_code := c_course_code course;
     a_course_name := c_name course;
     a_course := courseKey (c_course_code course) |}.

(** The [for] loop over the courses of the term.  [getAllPages] catches the
    failure of a request itself, so the [catch] of the loop body has nothing
    left to catch. *)
Fixpoint fetch_courses (fuel : nat) (courses : list CanvasCourse)
  (allAssignments : list (CanvasAssignment num)) (w : world Net)
  : option (list (CanvasAssignment num) * world Net) :=
  match courses with
  | [] => Some (allAssignments, w)
  | course :: rest =>
      match getAllPages requestAssignments fuel (assignmentsUrl settings course) w with
      | Some (assignments, w') =>
          let processedAssignments := map (annotate course) assignments in
          fetch_courses fuel rest (allAssignments ++ processedAssignments) w'
      | None => None
      end
  end.

Definition fetchCanvasAssignments (fuel : nat) (w : world Net)
  : option (list (CanvasAssignment num) * world Net) :=
  match getAllPages requestCourses fuel (coursesUrl settings) w with
  | Some (courses, w') =>
      let currentSemesterCourses :=
        filter (fun course => isCurrentSemesterCourse settings course = true)
          courses in
      fetch_courses fuel currentSemesterCourses [] w'
  | None => None
  end.
End Fetch.

(** ** Fingerprint: [getAssignmentHash] (main.ts 198-206)

    [JSON.stringify] of an object with three string properties and one number
    property.  [QuoteJSONString] escapes the double quote, the backslash and
    the control characters. *)

Definition hexDigit (n : N) : ascii :=
  ascii_of_N (if (n <? 10)%N then 48 + n else 87 + n).

Definition UnicodeEscape (c : ascii) : str :=
  lit "\u"
  ++ [hexDigit (code c / 4096 mod 16); hexDigit (code c / 256 mod 16);
      hexDigit (code c / 16 mod 16); hexDigit (code c mod 16)]%N.

Definition escapeChar (c : ascii) : str :=
  if (code c =? 8)%N then lit "\b"
  else if (code c =? 9)%N then lit "\t"
  else if (code c =? 10)%N then lit "\n"
  else if (code c =? 12)%N then lit "\f"
  else if (code c =? 13)%N then lit "\r"
  else if (code c =? 34)%N then ["\"%char; dquote]
  else if (code c =? 92)%N then lit "\\"
  else if (code c <? 32)%N then UnicodeEscape c
  else [c].

Definition QuoteJSONString (s : str) : str :=
  dquote :: flat_map escapeChar s ++ [dquote].

(** A property key: the name between double quotes, then a colon. *)
Definition jsonKey (name : string) : str := dquote :: lit name ++ [dquote; ":"%char].

Section Fingerprint.
Context {num : Type} `{JSNumber num}.

Definition getAssignmentHash (assignment : CanvasAssignment num) : str :=
  lit "{" ++ jsonKey "name" ++ QuoteJSONString (a_name assignment)
  ++ lit "," ++ jsonKey "description" ++ QuoteJSONString (a_description assignment)
  ++ lit "," ++ jsonKey "points_possible"
  ++ numberToString (a_points_possible assignment)
  ++ lit "," ++ jsonKey "html_url" ++ QuoteJSONString (a_html_url assignment)
  ++ lit "}".
End Fingerprint.

(** ** The host application

    The vault, its adapter, the Templater plugin and [moment] are outside the
    program.  Each operation on the state [W] of the host may throw an error,
    of which the program reads the message only. *)

Inductive result (A : Type) : Type :=
| Ok (a : A)
| Threw (message : str).

Arguments Ok {A} a.
Arguments Threw {A} message.

Record TFile : Type := {
  path : str;
  basename : str
}.

Class Obsidian (W : Type) : Type := {
  (** [this.app.plugins.plugins[...]] holds the Templater plugin *)
  templater : W -> bool;
  adapter_exists : str -> W -> result bool * W;
  adapter_read : str -> W -> result str * W;
  adapter_write : str -> str -> W -> result unit * W;
  createFolder : str -> W -> result unit * W;
  getMarkdownFiles : W -> result (list TFile);
  getAbstractFileByPath : str -> W -> option TFile;
  vault_read : TFile -> W -> result str * W;
  vault_create : str -> str -> W -> result TFile * W;
  vault_modify : TFile -> str -> W -> result unit * W;
  overwrite_file_commands : TFile -> W -> result unit * W;
  (** [window.moment(date).format(pattern)] (line 326) *)
  moment_format : str -> str -> str;
  (** [moment(date).format(pattern)] with the [moment] that line 2 imports
      as a name space (line 218): the call throws when the build makes of the
      import an object that cannot be called *)
  imported_moment_format : str -> str -> result str;
  (** [JSON.parse] of the store file, an error when it throws, and
      [JSON.stringify(store, null, 2)] *)
  JSON_parse : str -> result (gmap str str);
  JSON_stringify : gmap str str -> str
}.

(** The state of one run: the host, the remote side, the fingerprint store,
    the four counters and the notices shown so far. *)
Record run (W Net : Type) : Type := {
  host : W;
  remote : world Net;
  processedAssignments : gmap str str;
  createdCount : nat;
  updatedCount : nat;
  dueDateUpdatedCount : nat;
  skippedCount : nat;
  notices : list str
}.

Arguments host {W Net} _.
Arguments remote {W Net} _.
Arguments processedAssignments {W Net} _.
Arguments createdCount {W Net} _.
Arguments updatedCount {W Net} _.
Arguments dueDateUpdatedCount {W Net} _.
Arguments skippedCount {W Net} _.
Arguments notices {W Net} _.

Definition set_host {W Net : Type} (w : W) (s : run W Net) : run W Net :=
  {| host := w; remote := remote s;
     processedAssignments := processedAssignments s;
     createdCount := createdCount s; updatedCount := updatedCount s;
     dueDateUpdatedCount := dueDateUpdatedCount s;
     skippedCount := skippedCount s; notices := notices s |}.

Definition set_remote {W Net : Type} (r : world Net) (s : run W Net) : run W Net :=
  {| host := host s; remote := r;
     processedAssignments := processedAssignments s;
     createdCount := createdCount s; updatedCount := updatedCount s;
     dueDateUpdatedCount := dueDateUpdatedCount s;
     skippedCount := skippedCount s; notices := notices s |}.

Definition set_processedAssignments {W Net : Type} (store : gmap str str)
  (s : run W Net) : run W Net :=
  {| host := host s; remote := remote s; processedAssignments := store;
     createdCount := createdCount s; updatedCount := updatedCount s;
     dueDateUpdatedCount := dueDateUpdatedCount s;
     skippedCount := skippedCount s; notices := notices s |}.

Definition set_counts {W Net : Type} (created updated dueDateUpdated skipped : nat)
  (s : run W Net) : run W Net :=
  {| host := host s; remote := remote s;
     processedAssignments := processedAssignments s;
     createdCount := created; updatedCount := updated;
     dueDateUpdatedCount := dueDateUpdated;
     skippedCount := skipped; notices := notices s |}.

(** [new Notice(message)] *)
Definition show_notice {W Net : Type} (message : str) (s : run W Net) : run W Net :=
  {| host := host s; remote := remote s;
     processedAssignments := processedAssignments s;
     createdCount := createdCount s; updatedCount := updatedCount s;
     dueDateUpdatedCount := dueDateUpdatedCount s;
     skippedCount := skippedCount s; notices := notices s ++ [message] |}.

(** Statements end normally, by a [throw] or by the [continue] of the
    enclosing loop. *)
Inductive control (A : Type) : Type :=
| Normal (a : A)
| Throws (message : str)
| Continues.

Arguments Normal {A} a.
Arguments Throws {A} message.
Arguments Continues {A}.

Definition M (S A : Type) : Type := S -> control A * S.

Definition ret {S A : Type} (a : A) : M S A := fun s => (Normal a, s).

Definition bind {S A B : Type} (m : M S A) (f : A -> M S B) : M S B :=
  fun s =>
    match m s with
    | (Normal a, s') => f a s'
    | (Throws e, s') => (Throws e, s')
    | (Continues, s') => (Continues, s')
    end.

Definition throw {S A : Type} (message : str) : M S A := fun s => (Throws message, s).

Definition continue {S A : Type} : M S A := fun s => (Continues, s).

(** [try { m } catch (err) { handler }] *)
Definition try_catch {S A : Type} (m : M S A) (handler : str -> M S A) : M S A :=
  fun s =>
    match m s with
    | (Throws e, s') => handler e s'
    | r => r
    end.

Definition modify {S : Type} (f : S -> S) : M S unit := fun s => (Normal tt, f s).

Definition get {S : Type} : M S S := fun s => (Normal s, s).

Declare Scope js_scope.
Delimit Scope js_scope with js.
Notation "x <- m ;; k" := (bind m (fun x => k))
  (at level 100, m at next level, right associativity) : js_scope.
Notation "m ;;; k" := (bind m (fun _ => k))
  (at level 100, right associativity) : js_scope.

(** A result that is returned, or thrown. *)
Definition settle {S A : Type} (r : result A) : M S A :=
  match r with
  | Ok a => ret a
  | Threw e => throw e
  end.

(** An operation of the host as a statement of a run. *)
Definition call {W Net A : Type} (op : W -> result A * W) : M (run W Net) A :=
  fun s =>
    match op (host s) with
    | (Ok a, w) => (Normal a, set_host w s)
    | (Threw e, w) => (Throws e, set_host w s)
    end.

(** [for (const x of l) body] *)
Fixpoint for_of {S A : Type} (l : list A) (body : A -> M S unit) : M S unit :=
  match l with
  | [] => ret tt
  | x :: rest =>
      fun s =>
        match body x s with
        | (Normal _, s') => for_of rest body s'
        | (Continues, s') => for_of rest body s'
        | (Throws e, s') => (Throws e, s')
        end
  end.

(** Truthiness and [===] of strings. *)
Definition truthy (s : str) : bool :=
  match s with
  | [] => false
  | _ :: _ => true
  end.

Definition str_eqb (a b : str) : bool := bool_decide (a = b).

Definition nl : str := [ascii_of_N 10].

(** ** The plugin (main.ts 153-196, 208-232, 298-426) *)

Definition PROCESSED_ASSIGNMENTS_PATH : str := lit "processed_assignments.json".

(** [/duedate: .*$/m], [/Due Date: .*$/m] and
    [/## Assignment Details[\s\S]*$/] *)
Definition re_duedate : regex := text "duedate: " ++ [GreedyStar dot; EndLine].
Definition re_DueDate : regex := text "Due Date: " ++ [GreedyStar dot; EndLine].
Definition detailsHeading : string := "## Assignment Details".
Definition re_details : regex := text detailsHeading ++ [GreedyStar any; EndInput].

(** The first group of [/duedate: (.*?)(\n|$)/]: the lazy star stops at the
    first line feed or at the end of the input, and fails on a carriage
    return, after which the search resumes one code unit further. *)
Fixpoint lazy_until_LF_or_end (s : str) : option str :=
  match s with
  | [] => Some []
  | c :: t =>
      if (code c =? 10)%N then Some []
      else if dot c then
        match lazy_until_LF_or_end t with
        | Some group => Some (c :: group)
        | None => None
        end
      else None
  end.

Fixpoint match_duedate (s : str) : option str :=
  match
    (if startsWith (lit "duedate: ") s
     then lazy_until_LF_or_end (drop 9 s) else None)
  with
  | Some group => Some group
  | None =>
      match s with
      | [] => None
      | _ :: t => match_duedate t
      end
  end.

Section Plugin.
Context {W Net num : Type} `{Obsidian W} `{JSNumber num}.
Variable requestCourses : str -> Net -> response CanvasCourse * Net.
Variable requestAssignments : str -> Net -> response (CanvasAssignment num) * Net.
Variable settings : CanvasAssignmentProcessorSettings.

Local Open Scope js_scope.

Definition loadProcessedAssignments : M (run W Net) (gmap str str) :=
  try_catch
    (present <- call (adapter_exists PROCESSED_ASSIGNMENTS_PATH) ;;
     if (present : bool) then
       content <- call (adapter_read PROCESSED_ASSIGNMENTS_PATH) ;;
       match JSON_parse content with
       | Ok store => ret store
       | Threw e => throw e
       end
     else ret ∅)
    (fun _ => ret ∅).

Definition saveProcessedAssignments (store : gmap str str) : M (run W Net) unit :=
  try_catch
    (call (adapter_write PROCESSED_ASSIGNMENTS_PATH (JSON_stringify store)))
    (fun _ => ret tt).

Definition findExistingAssignmentFile (directoryPath cleanedName : str) (w : W)
  : option TFile :=
  match getMarkdownFiles w with
  | Ok all =>
      let files := List.filter (fun file => startsWith directoryPath (path file)) all in
      List.find
        (fun file =>
           let fileCleanedName := cleanAssignmentName (basename file) in
           str_eqb fileCleanedName cleanedName)
        files
  | Threw _ => None
  end.

Definition updateDueDate (existingFile : TFile) (newDueDate : str)
  : M (run W Net) bool :=
  try_catch
    (content <- call (vault_read existingFile) ;;
     let updatedContent :=
       replace re_duedate (lit "duedate: " ++ newDueDate) content in
     formattedDate <-
       (if truthy newDueDate
        then settle (imported_moment_format newDueDate (lit "MMMM Do YYYY"))
        else ret (lit "No Due Date")) ;;
     let updatedContent :=
       replace re_DueDate (lit "Due Date: " ++ formattedDate) updatedContent in
     call (vault_modify existingFile updatedContent) ;;;
     ret true)
    (fun _ => ret false).

(** Lines 336-349: the chain of folders. *)
Definition ensureFolder (folder : str) : M (run W Net) unit :=
  present <- call (adapter_exists folder) ;;
  if (present : bool) then ret tt else call (createFolder folder).

(** Lines 355-375: the note of a new assignment. *)
Definition enrichedContent (templateContent : str)
  (assignment : CanvasAssignment num) : str :=
  let enrichedContent := templateContent ++ nl ++ nl ++ lit detailsHeading ++ nl in
  let enrichedContent :=
    enrichedContent ++ lit "Points: "
    ++ numberToString (a_points_possible assignment) ++ nl in
  let enrichedContent :=
    if truthy (a_description assignment)
    then enrichedContent ++ nl ++ lit "### Description" ++ nl
         ++ a_description assignment ++ nl
    else enrichedContent in
  if truthy (a_html_url assignment)
  then enrichedContent ++ nl ++ lit "[View on Canvas](" ++ a_html_url assignment
       ++ lit ")" ++ nl
  else enrichedContent.

Definition incr_created (s : run W Net) : run W Net :=
  set_counts (S (createdCount s)) (updatedCount s) (dueDateUpdatedCount s)
    (skippedCount s) s.
Definition incr_updated (s : run W Net) : run W Net :=
  set_counts (createdCount s) (S (updatedCount s)) (dueDateUpdatedCount s)
    (skippedCount s) s.
Definition incr_dueDateUpdated (s : run W Net) : run W Net :=
  set_counts (createdCount s) (updatedCount s) (S (dueDateUpdatedCount s))
    (skippedCount s) s.
Definition incr_skipped (s : run W Net) : run W Net :=
  set_counts (createdCount s) (updatedCount s) (dueDateUpdatedCount s)
    (S (skippedCount s)) s.

Definition createNote (newNotePath : str) (assignment : CanvasAssignment num)
  : M (run W Net) unit :=
  s <- get ;;
  match getAbstractFileByPath (templatePath settings) (host s) with
  | None =>
      throw (lit "Template file not found at " ++ templatePath settings ++ lit "!")
  | Some templateFile =>
      templateContent <- call (vault_read templateFile) ;;
      file <- call (vault_create newNotePath
                      (enrichedContent templateContent assignment)) ;;
      call (overwrite_file_commands file) ;;;
      modify incr_created
  end.

(** Lines 383-391: the new text of a note whose content changed. *)
Definition detailsTemplate (assignment : CanvasAssignment num) : str :=
  lit detailsHeading ++ nl ++ lit "Points: "
  ++ numberToString (a_points_possible assignment) ++ nl ++ nl
  ++ lit "### Description" ++ nl ++ a_description assignment ++ nl ++ nl
  ++ lit "[View on Canvas](" ++ a_html_url assignment ++ lit ")" ++ nl.

Definition updatedContent (existingContent : str)
  (assignment : CanvasAssignment num) : str :=
  replace re_details (detailsTemplate assignment) existingContent.

Definition updateNote (existingFile : TFile) (assignment : CanvasAssignment num)
  : M (run W Net) unit :=
  existingContent <- call (vault_read existingFile) ;;
  call (vault_modify existingFile (updatedContent existingContent assignment)) ;;;
  modify incr_updated.

(** [previousHash && previousHash !== currentHash] *)
Definition contentChanged (previousHash : option str) (currentHash : str) : bool :=
  match previousHash with
  | Some h => truthy h && negb (str_eqb h currentHash)
  | None => false
  end.

Definition formatDueDate (assignment : CanvasAssignment num) : str :=
  match a_due_at assignment with
  | Some due => if truthy due then moment_format due (lit "YYYY-MM-DD") else []
  | None => []
  end.

Definition termFolder : str := semester settings ++ lit " " ++ year settings.

Definition directoryPathOf (assignment : CanvasAssignment num) : str :=
  termFolder ++ lit "/" ++ a_course assignment ++ lit "/Assignments".

Definition assignmentKeyOf (assignment : CanvasAssignment num) : str :=
  toLowerCase (a_course assignment ++ lit "-"
               ++ cleanAssignmentName (a_name assignment)).

(** Lines 399-412: the due date of an existing note. *)
Definition reconcileDueDate (existingFile : TFile) (formattedDate : str)
  : M (run W Net) unit :=
  fileContent <- call (vault_read existingFile) ;;
  let currentDueDate :=
    match match_duedate fileContent with
    | Some group => trim group
    | None => []
    end in
  if negb (str_eqb currentDueDate formattedDate) then
    updated <- updateDueDate existingFile formattedDate ;;
    if (updated : bool) then modify incr_dueDateUpdated else ret tt
  else modify incr_skipped.

Definition formattedTitleOf (assignment : CanvasAssignment num) : str :=
  cleanAssignmentName (a_name assignment) ++ lit " [Assignment] [-"
  ++ a_course assignment ++ lit "-] " ++ formatDueDate assignment.

Definition newNotePathOf (assignment : CanvasAssignment num) : str :=
  directoryPathOf assignment ++ lit "/" ++ formattedTitleOf assignment ++ lit ".md".

(** Lines 351-413: create the note, or update the note found. *)
Definition reconcileNote (assignment : CanvasAssignment num) : M (run W Net) unit :=
  s <- get ;;
  let existingFile :=
    findExistingAssignmentFile (directoryPathOf assignment)
      (cleanAssignmentName (a_name assignment)) (host s) in
  let previousHash := processedAssignments s !! assignmentKeyOf assignment in
  match existingFile with
  | None =>
      try_catch (createNote (newNotePathOf assignment) assignment)
        (fun _ => continue)
  | Some existingFile =>
      (if contentChanged previousHash (getAssignmentHash assignment)
       then try_catch (updateNote existingFile assignment) (fun _ => continue)
       else ret tt) ;;;
      reconcileDueDate existingFile (formatDueDate assignment)
  end.

(** Lines 318-416: the body of the loop over the assignments. *)
Definition reconcile (assignment : CanvasAssignment num) : M (run W Net) unit :=
  let courseCode := a_course assignment in
  let directoryPath := directoryPathOf assignment in
  let assignmentKey := assignmentKeyOf assignment in
  let currentHash := getAssignmentHash assignment in
  try_catch
    (ensureFolder termFolder ;;;
     ensureFolder (termFolder ++ lit "/" ++ courseCode) ;;;
     ensureFolder directoryPath)
    (fun _ => continue) ;;;
  reconcileNote assignment ;;;
  modify (fun s =>
    set_processedAssignments (<[assignmentKey := currentHash]> (processedAssignments s)) s).

Definition summary (s : run W Net) : str :=
  lit "Created " ++ showNat (createdCount s) ++ lit " new notes, updated "
  ++ showNat (updatedCount s) ++ lit ", updated "
  ++ showNat (dueDateUpdatedCount s) ++ lit " due dates, skipped "
  ++ showNat (skippedCount s) ++ lit " unchanged notes".

(** The remote side is asked with [fuel] turns for each pagination. *)
Definition fetchAssignments (fuel : nat)
  : run W Net -> option (list (CanvasAssignment num) * run W Net) :=
  fun s =>
    match fetchCanvasAssignments requestCourses requestAssignments settings fuel
            (remote s) with
    | Some (assignments, r) => Some (assignments, set_remote r s)
    | None => None
    end.

(** Lines 311-420, after the assignments are fetched. *)
Definition reconcileAll (assignments : list (CanvasAssignment num))
  : M (run W Net) unit :=
  modify (set_counts 0 0 0 0) ;;;
  for_of assignments reconcile ;;;
  s <- get ;;
  saveProcessedAssignments (processedAssignments s) ;;;
  s <- get ;;
  modify (show_notice (summary s)).

Definition createAssignmentNotes (fuel : nat) (s : run W Net) : option (run W Net) :=
  if negb (templater (host s)) then
    Some (show_notice
            (lit "Templater plugin not found! Please install and enable it.") s)
  else
    let s := show_notice (lit "Fetching Canvas assignments for "
                          ++ semester settings ++ lit " " ++ year settings
                          ++ lit "...") s in
    match loadProcessedAssignments s with
    | (Normal store, s) =>
        match fetchAssignments fuel (set_processedAssignments store s) with
        | Some (assignments, s) =>
            match reconcileAll assignments s with
            | (Throws e, s) => Some (show_notice (lit "Error: " ++ e) s)
            | (_, s) => Some s
            end
        | None => None
        end
    | (Throws e, s) => Some (show_notice (lit "Error: " ++ e) s)
    | (Continues, s) => Some s
    end.
End Plugin.
(** * Vocabulary of the properties

    The definitions below are not part of the program: they word the
    properties proved in the last part, and give small remote sides and a
    host on which the program runs. *)

(** ** Pagination *)

(** What the last answer contributes, and whether it ends the loop. *)
Definition last_items {T : Type} (r : response T) : list T :=
  match r with
  | Items data => data
  | _ => []
  end.

Definition ends {T : Type} (r : response T) : bool :=
  match r with
  | Items data => length data <? 100
  | _ => true
  end.

(** ** Fingerprint *)

Definition with_due_at {num : Type} (due : option str)
  (assignment : CanvasAssignment num) : CanvasAssignment num :=
  {| a_id := a_id assignment;
     a_name := a_name assignment;
     a_description := a_description assignment;
     a_html_url := a_html_url assignment;
     a_points_possible := a_points_possible assignment;
     a_due_at := due;
     a_course_code := a_course_code assignment;
     a_course_name := a_course_name assignment;
     a_course := a_course assignment |}.

(** Reading back one escaped character, to tell escaped texts apart. *)
Definition hexValue (c : ascii) : N :=
  if digit c then code c - 48 else code c - 87.

Definition unescapeChar (s : str) : option (ascii * str) :=
  match s with
  | [] => None
  | c :: t =>
      if chr dquote c then None
      else if chr "\" c then
        match t with
        | d :: t' =>
            if chr "b" d then Some (ascii_of_N 8, t')
            else if chr "t" d then Some (ascii_of_N 9, t')
            else if chr "n" d then Some (ascii_of_N 10, t')
            else if chr "f" d then Some (ascii_of_N 12, t')
            else if chr "r" d then Some (ascii_of_N 13, t')
            else if chr "u" d then
              match t' with
              | _ :: _ :: h :: l :: t'' =>
                  Some (ascii_of_N (hexValue h * 16 + hexValue l), t'')
              | _ => None
              end
            else Some (d, t')
        | [] => None
        end
      else Some (c, t)
  end.

(** ** The matcher *)

Definition suffix_closed (k : str -> option str) : Prop :=
  forall s rest, k s = Some rest -> exists m, s = m ++ rest.

(** The pattern matches nowhere in [s]. *)
Fixpoint nowhere (r : regex) (s : str) : Prop :=
  exec r s = None /\ match s with [] => True | _ :: t => nowhere r t end.

(** [RegExp.prototype.test] *)
Definition test (r : regex) (s : str) : bool :=
  match search r s with
  | Some _ => true
  | None => false
  end.

(** [exec r] finds exactly the words of [P], none of them empty. *)
Definition decides (r : regex) (P : str -> Prop) : Prop :=
  forall s,
    match exec r s with
    | Some rest => exists m, s = m ++ rest /\ P m /\ m <> []
    | None => forall m rest, s = m ++ rest -> ~ P m
    end.

(** ** Stripping, as the specification words it

    [strips P s out]: scanning [s] from the left, every word of [P] met is
    deleted and the scan resumes after it; a code unit where no word of [P]
    starts is kept.  [strips_first P s out] deletes the leftmost word only. *)

Inductive strips (P : str -> Prop) : str -> str -> Prop :=
| strips_nil : strips P [] []
| strips_word m rest out :
    P m -> m <> [] -> strips P rest out -> strips P (m ++ rest) out
| strips_keep c t out :
    (forall m rest, c :: t = m ++ rest -> ~ P m) ->
    strips P t out -> strips P (c :: t) (c :: out).

Inductive strips_first (P : str -> Prop) : str -> str -> Prop :=
| strips_first_none s :
    (forall b m a, s = b ++ m ++ a -> ~ P m) -> strips_first P s s
| strips_first_word b m a :
    P m ->
    (forall b1 b2 m' a', b = b1 ++ b2 -> b2 <> [] -> b2 ++ m ++ a = m' ++ a' -> ~ P m') ->
    strips_first P (b ++ m ++ a) (b ++ a).


(** A word made of one code unit of each class in turn. *)
Definition shaped (classes : list (ascii -> bool)) (m : str) : Prop :=
  Forall2 (fun p c => p c = true) classes m.

(** [[...]]: an opening bracket, then code units that are neither a closing
    bracket nor a line terminator, then a closing bracket. *)
Definition tag_body (c : ascii) : Prop :=
  chr "]" c = false /\ lineTerminator c = false.

Definition is_tag (m : str) : Prop :=
  exists body, m = "["%char :: body ++ ["]"%char] /\ Forall tag_body body.

(** [-XXX###-]: three capitals and three digits between hyphens. *)
Definition is_course_token : str -> Prop :=
  shaped [chr "-"; upper; upper; upper; digit; digit; digit; chr "-"].

(** [YYYY-MM-DD] *)
Definition is_date : str -> Prop :=
  shaped [digit; digit; digit; digit; chr "-"; digit; digit; chr "-"; digit; digit].

Definition legal (c : ascii) : bool := negb (illegal c).

(** Runs of white space become one space each. *)
Fixpoint collapse_runs (in_run : bool) (s : str) : str :=
  match s with
  | [] => []
  | c :: t =>
      if space c then
        if in_run then collapse_runs true t else " "%char :: collapse_runs true t
      else c :: collapse_runs false t
  end.

(** White space occurs as single spaces only; [after_space] tells whether the
    code unit before was one. *)
Fixpoint single_spaced (after_space : bool) (s : str) : Prop :=
  match s with
  | [] => True
  | c :: t =>
      if space c then c = " "%char /\ after_space = false /\ single_spaced true t
      else single_spaced false t
  end.

(** No white space in front. *)
Definition no_lead (s : str) : Prop :=
  match s with
  | c :: _ => space c = false
  | [] => True
  end.

(** ** The details section *)

(** [String.prototype.indexOf] *)
Fixpoint indexOf (s p : str) : option nat :=
  if startsWith p s then Some 0
  else match s with
       | [] => None
       | _ :: t => option_map S (indexOf t p)
       end.

(** ** Effects on the state of a run

    [effect dc du dd ds s s']: from [s] to [s'] the four counters grew by
    [dc], [du], [dd] and [ds]; the store, the remote side and the notices are
    the same. *)

Definition counts {W Net : Type} (s : run W Net) : nat * nat * nat * nat :=
  (createdCount s, updatedCount s, dueDateUpdatedCount s, skippedCount s).



Definition effect {W Net : Type} (dc du dd ds : nat) (s s' : run W Net) : Prop :=
  remote s' = remote s /\ notices s' = notices s
  /\ processedAssignments s' = processedAssignments s
  /\ createdCount s' = createdCount s + dc
  /\ updatedCount s' = updatedCount s + du
  /\ dueDateUpdatedCount s' = dueDateUpdatedCount s + dd
  /\ skippedCount s' = skippedCount s + ds.

Definition framed {W Net A : Type} (m : M (run W Net) A) : Prop :=
  forall s r s', m s = (r, s') -> effect 0 0 0 0 s s'.

(** The state once the fingerprint of [a] is stored (line 415). *)
Definition stored {W Net num : Type} `{JSNumber num} (a : CanvasAssignment num)
  (s : run W Net) : run W Net :=
  set_processedAssignments
    (<[assignmentKeyOf a := getAssignmentHash a]> (processedAssignments s)) s.

(** The due date written in a note (lines 400-401): the first group of the
    match, trimmed. *)
Definition currentDueDate (fileContent : str) : str :=
  match match_duedate fileContent with
  | Some group => trim group
  | None => []
  end.


(** ** Whole numbers as an instance of [JSNumber] *)

#[export] Instance JSNumber_N : JSNumber N.
Proof.
  refine {| numberToString := showN |}.
  - intros a b E. apply (f_equal string_of_list_ascii) in E. unfold showN, lit in E.
    rewrite !string_of_list_ascii_of_string in E.
    apply (f_equal NilEmpty.uint_of_string) in E. rewrite !NilEmpty.usu in E.
    injection E as E. apply (f_equal N.of_uint) in E.
    by rewrite !DecimalN.Unsigned.of_to in E.
  - intros a. unfold showN. induction (N.to_uint a); simpl; done.
Defined.

(** ** Remote sides *)

(** A remote side that sends the pages of a queue, whatever the URL. *)
Definition queue_source (url : str) (q : list (list nat))
  : response nat * list (list nat) :=
  match q with
  | [] => (Items [], [])
  | p :: q' => (Items p, q')
  end.

Definition essay_course : CanvasCourse :=
  {| c_id := 7; c_name := lit "Composition I"; c_course_code := lit "2025SPc";
     c_term := None |}.

(** A remote side with four courses; the second page of the assignments of
    course 2 cannot be fetched. *)
Definition mock_course (id : N) (code name : string) : CanvasCourse :=
  {| c_id := id; c_name := lit name; c_course_code := lit code; c_term := None |}.

Definition mock_courses : list CanvasCourse :=
  [mock_course 1 "ENG101" "English Spring 2025";
   mock_course 2 "MAT220" "Calculus Spring 2025";
   mock_course 3 "HIS300" "History Fall 2024";
   mock_course 4 "BIO110" "Biology Spring 2025"].

Definition mock_assignment (id : N) (name : string) : CanvasAssignment N :=
  {| a_id := id; a_name := lit name; a_description := []; a_html_url := [];
     a_points_possible := 10%N; a_due_at := None; a_course_code := [];
     a_course_name := []; a_course := [] |}.

Definition mock_requestCourses (url : str) (n : nat) : response CanvasCourse * nat :=
  (if includes url (lit "page=1&") then Items mock_courses else Items [], S n).

Definition mock_requestAssignments (url : str) (n : nat)
  : response (CanvasAssignment N) * nat :=
  (if includes url (lit "/courses/2/") then
     if includes url (lit "page=1&") then Items (repeat (mock_assignment 20 "Quiz") 100)
     else Throw
   else if includes url (lit "/courses/1/") then Items [mock_assignment 10 "Essay"]
   else Items [mock_assignment 40 "Lab"],
   S n).

(** ** A host kept in memory

    Folders, and files with their text; no operation fails but on a path that
    is missing or taken.  Dates are taken to be ISO timestamps, of which the
    first ten code units are the day. *)

Record memory : Type := {
  mem_templater : bool;
  mem_folders : list str;
  mem_files : list (TFile * str)
}.

Definition mem_lookup (p : str) (w : memory) : option (TFile * str) :=
  List.find (fun entry => str_eqb (path (fst entry)) p) (mem_files w).

Definition mem_exists (p : str) (w : memory) : bool :=
  existsb (str_eqb p) (mem_folders w)
  || match mem_lookup p w with Some _ => true | None => false end.

Definition mem_read (p : str) (w : memory) : result str * memory :=
  match mem_lookup p w with
  | Some (_, content) => (Ok content, w)
  | None => (Threw (lit "File not found"), w)
  end.

Fixpoint after_last_slash (p : str) : str :=
  match p with
  | [] => []
  | c :: t => if includes t (lit "/") then after_last_slash t
              else if chr "/" c then t else p
  end.

Definition stem (p : str) : str :=
  let name := after_last_slash p in take (length name - 3) name.

Definition mem_put (f : TFile) (content : str) (w : memory) : memory :=
  {| mem_templater := mem_templater w;
     mem_folders := mem_folders w;
     mem_files :=
       (f, content)
       :: List.filter (fun entry => negb (str_eqb (path (fst entry)) (path f)))
            (mem_files w) |}.

Definition mem_write (p content : str) (w : memory) : result unit * memory :=
  (Ok tt, mem_put {| path := p; basename := stem p |} content w).

Definition mem_createFolder (p : str) (w : memory) : result unit * memory :=
  if mem_exists p w then (Threw (lit "Folder already exists."), w)
  else (Ok tt, {| mem_templater := mem_templater w;
                  mem_folders := p :: mem_folders w;
                  mem_files := mem_files w |}).

Definition mem_markdown (w : memory) : result (list TFile) :=
  Ok (List.filter (fun f => startsWith (rev (lit ".md")) (rev (path f)))
        (map fst (mem_files w))).

Definition mem_create (p content : str) (w : memory) : result TFile * memory :=
  if mem_exists p w then (Threw (lit "File already exists."), w)
  else let f := {| path := p; basename := stem p |} in (Ok f, mem_put f content w).

Definition mem_modify (f : TFile) (content : str) (w : memory)
  : result unit * memory :=
  match mem_lookup (path f) w with
  | Some _ => (Ok tt, mem_put f content w)
  | None => (Threw (lit "File not found"), w)
  end.

Definition mem_format (date pattern : str) : str :=
  if str_eqb pattern (lit "YYYY-MM-DD") then take 10 date
  else lit "on " ++ take 10 date.

#[export] Instance Obsidian_memory : Obsidian memory :=
  {| templater := mem_templater;
     adapter_exists := fun p w => (Ok (mem_exists p w), w);
     adapter_read := mem_read;
     adapter_write := mem_write;
     createFolder := mem_createFolder;
     getMarkdownFiles := mem_markdown;
     getAbstractFileByPath := fun p w => option_map fst (mem_lookup p w);
     vault_read := fun f w => mem_read (path f) w;
     vault_create := mem_create;
     vault_modify := mem_modify;
     overwrite_file_commands := fun _ w => (Ok tt, w);
     moment_format := mem_format;
     imported_moment_format := fun d p => Ok (mem_format d p);
     JSON_parse := fun _ => Ok ∅;
     JSON_stringify := fun _ => lit "{}" |}.

(** ** The essay of ENG101

    A note written by an earlier run, and the assignment as it is fetched
    now. *)

(** A note of the essay of ENG101, written by an earlier run, and the
    assignment as it is fetched now. *)
Definition essay : CanvasAssignment N :=
  {| a_id := 10; a_name := lit "[HW] Essay -ENG101- 2025-03-01*";
     a_description := lit "Five pages."; a_html_url := lit "https://lms.test/a/10";
     a_points_possible := 20%N; a_due_at := Some (lit "2025-03-01T23:59:00Z");
     a_course_code := lit "ENG101-01"; a_course_name := lit "English Spring 2025";
     a_course := lit "ENG101" |}.

Definition essay_file : TFile :=
  {| path := lit "Spring 2025/ENG101/Assignments/Essay [Assignment] [-ENG101-] 2025-03-01.md";
     basename := lit "Essay [Assignment] [-ENG101-] 2025-03-01" |}.

Definition essay_front : str :=
  lit "---" ++ nl ++ lit "duedate: 2025-03-01" ++ nl ++ lit "---" ++ nl
  ++ lit "Due Date: on 2025-03-01" ++ nl ++ lit "My notes." ++ nl ++ nl.

Definition essay_body : str :=
  essay_front ++ lit detailsHeading ++ nl ++ lit "Points: 10" ++ nl.

Definition vault_with (body : str) : memory :=
  {| mem_templater := true;
     mem_folders := [lit "Spring 2025"; lit "Spring 2025/ENG101";
                     lit "Spring 2025/ENG101/Assignments"; lit "Templates"];
     mem_files := [(essay_file, body);
                   ({| path := lit "Templates/Assignment.md";
                       basename := lit "Assignment" |},
                    lit "---" ++ nl ++ lit "duedate: " ++ nl ++ lit "---" ++ nl)] |}.

Definition old_store : gmap str str :=
  {[ lit "eng101-essay" := lit "{}" ]}.

Definition start (w : memory) (store : gmap str str) : run memory nat :=
  {| host := w; remote := {| net := 0; requests := [] |};
     processedAssignments := store;
     createdCount := 0; updatedCount := 0; dueDateUpdatedCount := 0;
     skippedCount := 0; notices := [] |}.

Definition essay_start : run memory nat := start (vault_with essay_body) old_store.

Definition essay_end : run memory nat :=
  snd (reconcile DEFAULT_SETTINGS essay essay_start).

Definition essay_run_end : run memory nat :=
  snd (reconcileAll DEFAULT_SETTINGS [essay] essay_start).

Definition plain_body : str := essay_front ++ lit "No details yet." ++ nl.

Definition plain_start : run memory nat := start (vault_with plain_body) old_store.

(** A vault without folders and files, and the lab of BIO110. *)
Definition bare_start : run memory nat :=
  start {| mem_templater := true; mem_folders := []; mem_files := [] |} ∅.

Definition lab : CanvasAssignment N :=
  annotate (mock_course 4 "BIO110" "Biology Spring 2025") (mock_assignment 40 "Lab").

(** The same host under a build in which the imported [moment] cannot be
    called; the essay, due a month later. *)
Record bundled : Type := { unbundled : memory }.

Definition bundle {A : Type} (r : result A * memory) : result A * bundled :=
  (fst r, {| unbundled := snd r |}).

#[export] Instance Obsidian_bundled : Obsidian bundled | 10 :=
  {| templater := fun w => mem_templater (unbundled w);
     adapter_exists := fun p w => (Ok (mem_exists p (unbundled w)), w);
     adapter_read := fun p w => bundle (mem_read p (unbundled w));
     adapter_write := fun p c w => bundle (mem_write p c (unbundled w));
     createFolder := fun p w => bundle (mem_createFolder p (unbundled w));
     getMarkdownFiles := fun w => mem_markdown (unbundled w);
     getAbstractFileByPath := fun p w => option_map fst (mem_lookup p (unbundled w));
     vault_read := fun f w => bundle (mem_read (path f) (unbundled w));
     vault_create := fun p c w => bundle (mem_create p c (unbundled w));
     vault_modify := fun f c w => bundle (mem_modify f c (unbundled w));
     overwrite_file_commands := fun _ w => (Ok tt, w);
     moment_format := mem_format;
     imported_moment_format := fun _ _ => Threw (lit "moment is not a function");
     JSON_parse := fun _ => Ok ∅;
     JSON_stringify := fun _ => lit "{}" |}.

Definition bundled_start : run bundled nat :=
  {| host := {| unbundled := vault_with essay_body |};
     remote := {| net := 0; requests := [] |};
     processedAssignments := ∅;
     createdCount := 0; updatedCount := 0; dueDateUpdatedCount := 0;
     skippedCount := 0; notices := [] |}.

Definition essay_postponed : CanvasAssignment N :=
  with_due_at (Some (lit "2025-04-02T23:59:00Z")) essay.

(** ** Vocabulary of the further properties *)

(** [[A-Z]{3}[0-9]{3}]: the subject code of a course. *)
Definition is_subject : str -> Prop :=
  shaped [upper; upper; upper; digit; digit; digit].

(** A URL of the assignments of one of the courses [cs]. *)
Definition assignments_request (settings : CanvasAssignmentProcessorSettings)
  (cs : list CanvasCourse) (url : str) : Prop :=
  exists c page, c ∈ cs /\ url = pageUrl (assignmentsUrl settings c) page.

(** The assignment [a] carries the code, the name and the key of [c]. *)
Definition annotated_by {num : Type} (c : CanvasCourse) (a : CanvasAssignment num)
  : Prop :=
  a_course_code a = c_course_code c /\ a_course_name a = c_name c
  /\ a_course a = courseKey (c_course_code c).

(** A remote side where every request fails. *)
Definition failing_source (url : str) (n : nat) : response nat * nat := (Throw, S n).

(** The three tests the course filter comes down to. *)
Definition matchesTerm (settings : CanvasAssignmentProcessorSettings)
  (course : CanvasCourse) : bool :=
  let sem := toLowerCase (semester settings) in
  includes (toLowerCase (c_name course)) (sem ++ lit " " ++ year settings)
  || (includes (toLowerCase (c_course_code course)) sem
      && includes (toLowerCase (c_course_code course)) (year settings))
  || includes (termName course) (year settings ++ lit " " ++ sem).

(** A note of [directoryPath] whose cleaned base name is [cleanedName]. *)
Definition candidate (directoryPath cleanedName : str) (file : TFile) : Prop :=
  startsWith directoryPath (path file) = true
  /\ cleanAssignmentName (basename file) = cleanedName.


(** The store once the essay is processed, and a vault whose notes cannot be
    read. *)
Definition fresh_store : gmap str str :=
  {[ assignmentKeyOf essay := getAssignmentHash essay ]}.

Definition fresh_start : run memory nat := start (vault_with essay_body) fresh_store.

Record locked : Type := { unlocked : memory }.

Definition lock {A : Type} (r : result A * memory) : result A * locked :=
  (fst r, {| unlocked := snd r |}).

#[export] Instance Obsidian_locked : Obsidian locked | 10 :=
  {| templater := fun w => mem_templater (unlocked w);
     adapter_exists := fun p w => (Ok (mem_exists p (unlocked w)), w);
     adapter_read := fun p w => lock (mem_read p (unlocked w));
     adapter_write := fun p c w => lock (mem_write p c (unlocked w));
     createFolder := fun p w => lock (mem_createFolder p (unlocked w));
     getMarkdownFiles := fun w => mem_markdown (unlocked w);
     getAbstractFileByPath := fun p w => option_map fst (mem_lookup p (unlocked w));
     vault_read := fun _ w => (Threw (lit "EACCES"), w);
     vault_create := fun p c w => lock (mem_create p c (unlocked w));
     vault_modify := fun f c w => lock (mem_modify f c (unlocked w));
     overwrite_file_commands := fun _ w => (Ok tt, w);
     moment_format := mem_format;
     imported_moment_format := fun d p => Ok (mem_format d p);
     JSON_parse := fun _ => Ok ∅;
     JSON_stringify := fun _ => lit "{}" |}.

Definition locked_start (store : gmap str str) : run locked nat :=
  {| host := {| unlocked := vault_with essay_body |};
     remote := {| net := 0; requests := [] |};
     processedAssignments := store;
     createdCount := 0; updatedCount := 0; dueDateUpdatedCount := 0;
     skippedCount := 0; notices := [] |}.

(** ** Lines and templates *)

(** A text in which no dollar sign occurs: as the second argument of
    [replace] it stands for itself. *)
Definition dollar_free (s : str) : Prop :=
  forallb (fun c => negb (chr "$" c)) s = true.

(** [s] from its first line terminator on. *)
Fixpoint skip_line (s : str) : str :=
  match s with
  | c :: t => if dot c then skip_line t else s
  | [] => []
  end.

(** The first line of [s] that holds [key] gets [value] from [key] to its
    end; nothing else changes. *)
Definition rewrite_line (key value s : str) : str :=
  match indexOf s key with
  | Some n => take n s ++ key ++ value ++ skip_line (drop (n + length key) s)
  | None => s
  end.

(** The human-readable date that [updateDueDate] writes, when the imported
    [moment] can be called. *)
Definition longDate {W : Type} `{Obsidian W} (newDueDate : str) : result str :=
  if truthy newDueDate then imported_moment_format newDueDate (lit "MMMM Do YYYY")
  else Ok (lit "No Due Date").

(** The text that [updateDueDate] passes to [vault.modify] (lines 212-225). *)
Definition dueDateContent (content newDueDate formattedDate : str) : str :=
  replace re_DueDate (lit "Due Date: " ++ formattedDate)
    (replace re_duedate (lit "duedate: " ++ newDueDate) content).

(** ** The name of a note that the plugin created *)


(** The code unit [a] does not occur in [s]. *)
Definition lacks (a : ascii) (s : str) : Prop :=
  forallb (fun c => negb (chr a c)) s = true.

(** An assignment with another description. *)
Definition with_description {num : Type} (description : str)
  (assignment : CanvasAssignment num) : CanvasAssignment num :=
  {| a_id := a_id assignment;
     a_name := a_name assignment;
     a_description := description;
     a_html_url := a_html_url assignment;
     a_points_possible := a_points_possible assignment;
     a_due_at := a_due_at assignment;
     a_course_code := a_course_code assignment;
     a_course_name := a_course_name assignment;
     a_course := a_course assignment |}.

(** * Properties *)

Example clean_essay :
  cleanAssignmentName (lit "[HW] Essay -ENG101- 2025-03-01*") = lit "Essay".
Proof. vm_compute. reflexivity. Qed.

(** ** Substrings *)

Lemma startsWith_spec (p s : str) :
  startsWith p s = true <-> exists r, s = p ++ r.
Proof.
  revert s. induction p as [|a p IH]; intros s; simpl.
  - split; [intros _; by exists s | done].
  - destruct s as [|c s].
    + split; [done | intros [r Hr]; discriminate].
    + rewrite andb_true_iff, IH. split.
      * intros [Hac [r ->]]. apply Ascii.eqb_eq in Hac as ->. by exists r.
      * intros [r Hr]. injection Hr as -> ->. split; [apply Ascii.eqb_refl | by exists r].
Qed.

Lemma includes_spec (s p : str) :
  includes s p = true <-> exists l1 l2, s = l1 ++ p ++ l2.
Proof.
  induction s as [|c s IH].
  - simpl. rewrite orb_false_r, startsWith_spec. split.
    + intros [r Hr]. by exists [], r.
    + intros [l1 [l2 H]]. destruct l1; [by exists l2 | discriminate].
  - change (includes (c :: s) p) with (startsWith p (c :: s) || includes s p).
    rewrite orb_true_iff, startsWith_spec, IH. split.
    + intros [[r Hr] | [l1 [l2 H]]].
      * by exists [], r.
      * exists (c :: l1), l2. by rewrite H.
    + intros [l1 [l2 H]]. destruct l1 as [|d l1].
      * left. by exists l2.
      * right. injection H as -> ->. by exists l1, l2.
Qed.

Lemma includes_false_app (s a b : str) :
  includes s a = false \/ includes s b = false -> includes s (a ++ b) = false.
Proof.
  intros H. destruct (includes s (a ++ b)) eqn:E; [|done].
  apply includes_spec in E as [l1 [l2 E]].
  destruct H as [H | H].
  - assert (includes s a = true) as Ha; [|congruence].
    apply includes_spec. exists l1, (b ++ l2). by rewrite E, <- app_assoc.
  - assert (includes s b = true) as Hb; [|congruence].
    apply includes_spec. exists (l1 ++ a), l2. by rewrite E, <- !app_assoc.
Qed.

Lemma lowerChar_idem (c : ascii) : lowerChar (lowerChar c) = lowerChar c.
Proof. destruct c as [[] [] [] [] [] [] [] []]; vm_compute; reflexivity. Qed.

Lemma toLowerCase_idem (s : str) : toLowerCase (toLowerCase s) = toLowerCase s.
Proof.
  unfold toLowerCase. rewrite map_map. apply map_ext. intros c. apply lowerChar_idem.
Qed.

(** A text found inside a lower-cased string is in lower case itself. *)
Lemma includes_lower_fixed (s p : str) :
  includes (toLowerCase s) p = true -> toLowerCase p = p.
Proof.
  intros H. apply includes_spec in H as [l1 [l2 H]].
  pose proof (toLowerCase_idem s) as Hi. rewrite H in Hi.
  unfold toLowerCase in Hi. rewrite !map_app in Hi.
  apply app_inj_1 in Hi as [_ Hi]; [|by rewrite length_map].
  apply app_inj_1 in Hi as [Hi _]; [done | by rewrite length_map].
Qed.

(** ** Course filter *)

(** C2, as stated, fails: with the semester [Spring] and the year [2025] the
    course code [2025SPc] matches none of the five tests, because the code is
    searched for the configured token [spring] itself. *)
Lemma isCurrentSemesterCourse_2025SPc_Spring :
  semester DEFAULT_SETTINGS = lit "Spring" /\ year DEFAULT_SETTINGS = lit "2025"
  /\ c_course_code essay_course = lit "2025SPc"
  /\ isCurrentSemesterCourse DEFAULT_SETTINGS essay_course = false.
Proof. repeat split; vm_compute; reflexivity. Qed.

Lemma includes_false_l (s a b : str) :
  includes s a = false -> includes s (a ++ b) = false.
Proof. intros H. apply includes_false_app. by left. Qed.

Lemma includes_false_r (s a b : str) :
  includes s b = false -> includes s (a ++ b) = false.
Proof. intros H. apply includes_false_app. by right. Qed.

Lemma termName_default (course : CanvasCourse) :
  termName course = toLowerCase (default [] (c_term course)).
Proof. unfold termName. by destruct (c_term course). Qed.

(** C2 (amended): the course code [2025SPc] is matched when the configured
    semester token occurs in it, as [SP] does with the year [2025]; with the
    semester [Spring] the code contributes nothing and the answer is decided by
    the course name and the term name alone; a course whose name, code and term
    name contain neither the semester nor the year token is rejected. *)
Theorem isCurrentSemesterCourse_tokens
  (settings : CanvasAssignmentProcessorSettings) (course : CanvasCourse) :
  (semester settings = lit "SP" -> year settings = lit "2025" ->
   c_course_code course = lit "2025SPc" ->
   isCurrentSemesterCourse settings course = true)
  /\ (semester settings = lit "Spring" -> year settings = lit "2025" ->
      c_course_code course = lit "2025SPc" ->
      isCurrentSemesterCourse settings course
      = includes (toLowerCase (c_name course)) (lit "spring 2025")
        || includes (termName course) (lit "2025 spring"))
  /\ (mentionsToken course (semester settings) = false ->
      mentionsToken course (year settings) = false ->
      isCurrentSemesterCourse settings course = false).
Proof.
  split; [|split].
  - intros Hs Hy Hc. unfold isCurrentSemesterCourse. rewrite Hs, Hy, Hc.
    match goal with
    | |- _ || ?b || _ || _ || _ = true =>
        assert (b = true) as -> by (vm_compute; reflexivity)
    end.
    by rewrite orb_true_r.
  - intros Hs Hy Hc. unfold isCurrentSemesterCourse. rewrite Hs, Hy, Hc.
    match goal with
    | |- _ || ?b || ?c || ?d || _ = _ =>
        assert (b = false) as -> by (vm_compute; reflexivity);
        assert (c = false) as -> by (vm_compute; reflexivity);
        assert (d = false) as -> by (vm_compute; reflexivity)
    end.
    by rewrite !orb_false_r.
  - intros Hs _. unfold mentionsToken, containsToken in Hs.
    apply orb_false_iff in Hs as [Hs Ht]. apply orb_false_iff in Hs as [Hn Hc].
    unfold isCurrentSemesterCourse. cbv zeta. rewrite termName_default.
    rewrite (includes_false_l _ _ _ Hn), (includes_false_r _ _ _ Hc), Hc.
    rewrite (includes_false_r _ _ _ (includes_false_l _ _ _ Hc)).
    by rewrite (includes_false_r _ _ _ (includes_false_r _ _ _ Ht)).
Qed.

Lemma isCurrentSemesterCourse_tokens_witness :
  isCurrentSemesterCourse
    {| canvasToken := []; canvasApiBase := []; templatePath := [];
       semester := lit "SP"; year := lit "2025" |} essay_course = true
  /\ isCurrentSemesterCourse DEFAULT_SETTINGS essay_course = false
  /\ isCurrentSemesterCourse DEFAULT_SETTINGS
       {| c_id := 8; c_name := lit "Pottery"; c_course_code := lit "ART-7";
          c_term := Some (lit "Evening classes") |} = false.
Proof.
  split; [|split].
  - apply isCurrentSemesterCourse_tokens; reflexivity.
  - rewrite (proj1 (proj2 (isCurrentSemesterCourse_tokens _ _)));
      vm_compute; reflexivity.
  - apply isCurrentSemesterCourse_tokens; vm_compute; reflexivity.
Defined.

(** ** Pagination *)

Section FetcherFacts.
Context {Net T : Type}.
Variable makeRequest : str -> Net -> response T * Net.

Lemma page_turn_full (p allData : list T) (page : nat) :
  length p = 100 -> page_turn (Items p) allData page = (allData ++ p, S page, true).
Proof. intros H. unfold page_turn. by rewrite H. Qed.

Lemma page_turn_ends (r : response T) (allData : list T) (page : nat) :
  ends r = true ->
  exists page', page_turn r allData page = (allData ++ last_items r, page', false).
Proof.
  destruct r as [| |data]; simpl; intros H.
  - exists page. by rewrite app_nil_r.
  - exists page. by rewrite app_nil_r.
  - rewrite H. destruct data as [|x data]; simpl.
    + exists page. by rewrite app_nil_r.
    + by exists (S page).
Qed.

Lemma getAllPages_loop_serves (baseUrl : str) (page : nat) (n : Net)
  (ps : list (list T)) (last : response T) (n' : Net) :
  serves makeRequest baseUrl page n ps last n' ->
  Forall (fun p => length p = 100) ps ->
  ends last = true ->
  forall (fuel : nat) (allData : list T) (w : world Net),
    net w = n -> length ps < fuel ->
    getAllPages_loop makeRequest fuel baseUrl allData page w
    = Some (allData ++ concat ps ++ last_items last,
            {| net := n';
               requests := requests w
                 ++ map (pageUrl baseUrl) (seq page (S (length ps))) |}).
Proof.
  induction 1 as [page n last n' Hreq | page n p n1 ps last n' Hreq Hs IH];
    intros Hfull Hend fuel allData w Hw Hfuel.
  - destruct fuel as [|fuel]; [simpl in Hfuel; lia|].
    simpl. rewrite Hw, Hreq.
    destruct (page_turn_ends last allData page Hend) as [page' ->].
    done.
  - destruct fuel as [|fuel]; [simpl in Hfuel; lia|].
    apply Forall_cons in Hfull as [Hp Hfull].
    simpl. rewrite Hw, Hreq, (page_turn_full _ _ _ Hp).
    rewrite (IH Hfull Hend fuel); [|done|simpl in Hfuel; lia].
    simpl. by rewrite <- !app_assoc.
Qed.

(** C1: when the remote side sends N pages of 100 items and then a page of
    fewer than 100 items (possibly none), [getAllPages] asks for the pages
    1 to N+1, each with [per_page=100], in this order and for no other, and
    returns the items of all the pages in the order of the requests. *)
Theorem getAllPages_full_then_short (baseUrl : str) (w : world Net)
  (ps : list (list T)) (lastp : list T) (n' : Net) (fuel : nat) :
  serves makeRequest baseUrl 1 (net w) ps (Items lastp) n' ->
  Forall (fun p => length p = 100) ps ->
  length lastp < 100 ->
  length ps < fuel ->
  getAllPages makeRequest fuel baseUrl w
  = Some (concat ps ++ lastp,
          {| net := n';
             requests := requests w
               ++ map (pageUrl baseUrl) (seq 1 (length ps + 1)) |}).
Proof.
  intros Hs Hfull Hshort Hfuel. unfold getAllPages.
  rewrite (getAllPages_loop_serves _ _ _ _ _ _ Hs Hfull); [|simpl|done|done].
  - simpl. by rewrite Nat.add_1_r.
  - by apply Nat.ltb_lt.
Qed.

(** A request that throws after N full pages ends the pagination with the
    items of these pages. *)
Lemma getAllPages_throw (baseUrl : str) (w : world Net)
  (ps : list (list T)) (n' : Net) (fuel : nat) :
  serves makeRequest baseUrl 1 (net w) ps Throw n' ->
  Forall (fun p => length p = 100) ps ->
  length ps < fuel ->
  getAllPages makeRequest fuel baseUrl w
  = Some (concat ps,
          {| net := n';
             requests := requests w
               ++ map (pageUrl baseUrl) (seq 1 (S (length ps))) |}).
Proof.
  intros Hs Hfull Hfuel. unfold getAllPages.
  rewrite (getAllPages_loop_serves _ _ _ _ _ _ Hs Hfull); [|done|done|done].
  simpl. by rewrite app_nil_r.
Qed.
End FetcherFacts.

Lemma getAllPages_full_then_short_witness :
  getAllPages queue_source 5 (lit "https://lms.test/api/v1/courses")
    {| net := [repeat 7 100; repeat 8 100; [1; 2; 3]]; requests := [] |}
  = Some (repeat 7 100 ++ repeat 8 100 ++ [1; 2; 3],
          {| net := [];
             requests :=
               [lit "https://lms.test/api/v1/courses?page=1&per_page=100";
                lit "https://lms.test/api/v1/courses?page=2&per_page=100";
                lit "https://lms.test/api/v1/courses?page=3&per_page=100"] |}).
Proof.
  rewrite (getAllPages_full_then_short queue_source _ _
             [repeat 7 100; repeat 8 100] [1; 2; 3] []).
  - reflexivity.
  - do 2 (eapply serves_page; [reflexivity|]). apply serves_last. reflexivity.
  - repeat constructor.
  - simpl. lia.
  - simpl. lia.
Defined.

(** ** Assignment fetch *)

Section FetchFacts.
Context {Net num : Type}.
Variable requestCourses : str -> Net -> response CanvasCourse * Net.
Variable requestAssignments : str -> Net -> response (CanvasAssignment num) * Net.
Variable settings : CanvasAssignmentProcessorSettings.

Lemma fetch_courses_acc (fuel : nat) (courses : list CanvasCourse)
  (acc : list (CanvasAssignment num)) (w : world Net) :
  fetch_courses requestAssignments settings fuel courses acc w
  = match fetch_courses requestAssignments settings fuel courses [] w with
    | Some (found, w') => Some (acc ++ found, w')
    | None => None
    end.
Proof.
  revert acc w. induction courses as [|course rest IH]; intros acc w; simpl.
  - by rewrite app_nil_r.
  - destruct (getAllPages _ _ _ _) as [[assignments w']|]; [|done].
    rewrite IH. rewrite (IH (map _ _)).
    destruct (fetch_courses _ _ _ rest [] w') as [[found w'']|]; [|done].
    by rewrite app_assoc.
Qed.

Lemma fetch_courses_app (fuel : nat) (before after : list CanvasCourse)
  (w : world Net) :
  fetch_courses requestAssignments settings fuel (before ++ after) [] w
  = match fetch_courses requestAssignments settings fuel before [] w with
    | Some (found, w') =>
        fetch_courses requestAssignments settings fuel after found w'
    | None => None
    end.
Proof.
  revert w. induction before as [|course rest IH]; intros w; simpl.
  { by destruct (fetch_courses _ _ _ after [] w) as [[found w']|]. }
  destruct (getAllPages _ _ _ _) as [[assignments w']|]; [|done].
  rewrite (fetch_courses_acc fuel (rest ++ after) (map _ _)), IH.
  rewrite (fetch_courses_acc fuel rest (map _ _)).
  destruct (fetch_courses _ _ _ rest [] w') as [[found w'']|]; [|done].
  rewrite (fetch_courses_acc fuel after (_ ++ _)), (fetch_courses_acc fuel after found).
  destruct (fetch_courses _ _ _ after [] w'') as [[found' w''']|]; [|done].
  by rewrite app_assoc.
Qed.

(** C3: when a request for the assignments of one course throws after some
    full pages, [getAllPages] returns the items of these pages and no error,
    and [fetchCanvasAssignments] goes on with the courses that follow: its
    result holds the assignments of the courses before, the partial result
    of the failing course and the assignments of the courses after it. *)
Theorem fetchCanvasAssignments_survives_throw (fuel : nat)
  (w0 w1 w2 w4 : world Net) (courses before after : list CanvasCourse)
  (course : CanvasCourse) (found1 found2 : list (CanvasAssignment num))
  (ps : list (list (CanvasAssignment num))) (n3 : Net) :
  let w3 := {| net := n3;
               requests := requests w2
                 ++ map (pageUrl (assignmentsUrl settings course))
                      (seq 1 (S (length ps))) |} in
  getAllPages requestCourses fuel (coursesUrl settings) w0 = Some (courses, w1) ->
  filter (fun c => isCurrentSemesterCourse settings c = true) courses
  = before ++ course :: after ->
  fetch_courses requestAssignments settings fuel before [] w1 = Some (found1, w2) ->
  serves requestAssignments (assignmentsUrl settings course) 1 (net w2) ps Throw n3 ->
  Forall (fun p => length p = 100) ps ->
  length ps < fuel ->
  fetch_courses requestAssignments settings fuel after [] w3 = Some (found2, w4) ->
  getAllPages requestAssignments fuel (assignmentsUrl settings course) w2
  = Some (concat ps, w3)
  /\ fetchCanvasAssignments requestCourses requestAssignments settings fuel w0
     = Some (found1 ++ map (annotate course) (concat ps) ++ found2, w4).
Proof.
  intros w3 Hcourses Hfilter Hbefore Hserves Hfull Hfuel Hafter.
  pose proof (getAllPages_throw _ _ _ _ _ _ Hserves Hfull Hfuel) as Hpartial.
  split; [exact Hpartial|].
  unfold fetchCanvasAssignments. rewrite Hcourses. cbv zeta.
  rewrite Hfilter, fetch_courses_app, Hbefore. simpl.
  rewrite Hpartial, fetch_courses_acc. fold w3. rewrite Hafter.
  by rewrite <- app_assoc.
Qed.
End FetchFacts.

Lemma fetchCanvasAssignments_survives_throw_witness :
  exists w4,
    fetchCanvasAssignments mock_requestCourses mock_requestAssignments
      DEFAULT_SETTINGS 3 {| net := 0; requests := [] |}
    = Some ([annotate (mock_course 1 "ENG101" "English Spring 2025")
               (mock_assignment 10 "Essay")]
            ++ map (annotate (mock_course 2 "MAT220" "Calculus Spring 2025"))
                 (concat [repeat (mock_assignment 20 "Quiz") 100])
            ++ [annotate (mock_course 4 "BIO110" "Biology Spring 2025")
                  (mock_assignment 40 "Lab")], w4)
    /\ net w4 = 5 /\ length (requests w4) = 5.
Proof.
  eexists. split.
  - refine (proj2 (fetchCanvasAssignments_survives_throw
             mock_requestCourses mock_requestAssignments DEFAULT_SETTINGS 3
             {| net := 0; requests := [] |} _ _ _ mock_courses
             [mock_course 1 "ENG101" "English Spring 2025"]
             [mock_course 4 "BIO110" "Biology Spring 2025"]
             (mock_course 2 "MAT220" "Calculus Spring 2025") _ _
             [repeat (mock_assignment 20 "Quiz") 100] 4 _ _ _ _ _ _ _)).
    + vm_compute. reflexivity.
    + vm_compute. reflexivity.
    + vm_compute. reflexivity.
    + eapply serves_page; [vm_compute; reflexivity|].
      apply serves_last. vm_compute. reflexivity.
    + repeat constructor.
    + simpl. lia.
    + vm_compute. reflexivity.
  - split; reflexivity.
Defined.

(** ** Fingerprint *)

Lemma unescapeChar_escapeChar (c : ascii) (r : str) :
  unescapeChar (escapeChar c ++ r) = Some (c, r).
Proof. destruct c as [[] [] [] [] [] [] [] []]; vm_compute; reflexivity. Qed.

Lemma escaped_inj (s1 s2 r1 r2 : str) :
  flat_map escapeChar s1 ++ dquote :: r1 = flat_map escapeChar s2 ++ dquote :: r2 ->
  s1 = s2 /\ r1 = r2.
Proof.
  revert s2. induction s1 as [|c1 s1 IH]; intros [|c2 s2] E; simpl in E.
  - by injection E.
  - apply (f_equal unescapeChar) in E.
    rewrite <- app_assoc, unescapeChar_escapeChar in E. discriminate.
  - apply (f_equal unescapeChar) in E.
    rewrite <- app_assoc, unescapeChar_escapeChar in E. discriminate.
  - apply (f_equal unescapeChar) in E.
    rewrite <- !app_assoc, !unescapeChar_escapeChar in E.
    injection E as -> E. by destruct (IH _ E) as [-> ->].
Qed.

Lemma QuoteJSONString_inj (s1 s2 r1 r2 : str) :
  QuoteJSONString s1 ++ r1 = QuoteJSONString s2 ++ r2 -> s1 = s2 /\ r1 = r2.
Proof.
  unfold QuoteJSONString. simpl. rewrite <- !app_assoc. simpl.
  intros E. injection E as E. by apply escaped_inj.
Qed.

Lemma numeric_comma_inj (x y r1 r2 : str) :
  forallb numeric x = true -> forallb numeric y = true ->
  x ++ ","%char :: r1 = y ++ ","%char :: r2 -> x = y /\ r1 = r2.
Proof.
  revert y. induction x as [|a x IH]; intros [|b y] Hx Hy E; simpl in *.
  - by injection E.
  - injection E as <- _. discriminate.
  - injection E as -> _. discriminate.
  - injection E as -> E.
    apply andb_true_iff in Hx as [_ Hx]. apply andb_true_iff in Hy as [_ Hy].
    by destruct (IH _ Hx Hy E) as [-> ->].
Qed.

(** C4: two assignments have the same fingerprint exactly when their names,
    descriptions, points and URLs are the same; the due date has no part in
    it. *)
Theorem getAssignmentHash_fields {num : Type} `{JSNumber num}
  (a b : CanvasAssignment num) :
  (getAssignmentHash a = getAssignmentHash b
   <-> a_name a = a_name b /\ a_description a = a_description b
       /\ a_points_possible a = a_points_possible b /\ a_html_url a = a_html_url b)
  /\ (forall due : option str, getAssignmentHash (with_due_at due a) = getAssignmentHash a).
Proof.
  split; [split|done].
  - unfold getAssignmentHash. intros E.
    apply app_inv_head in E. apply app_inv_head in E.
    apply QuoteJSONString_inj in E as [Hname E].
    apply app_inv_head in E. apply app_inv_head in E.
    apply QuoteJSONString_inj in E as [Hdesc E].
    apply app_inv_head in E. apply app_inv_head in E.
    apply numeric_comma_inj in E as [Hpts E];
      [|apply numberToString_numeric|apply numberToString_numeric].
    apply numberToString_inj in Hpts.
    apply (app_inv_head (jsonKey "html_url")) in E.
    by apply QuoteJSONString_inj in E as [Hurl _].
  - intros (Hn & Hd & Hp & Hu). unfold getAssignmentHash.
    by rewrite Hn, Hd, Hp, Hu.
Qed.

(** ** The matcher *)

Lemma lazy_star_suffix (p : ascii -> bool) (k : str -> option str) :
  suffix_closed k -> suffix_closed (lazy_star p k).
Proof.
  intros Hk s. induction s as [|c t IH]; intros rest; simpl.
  - destruct (k []) eqn:E; [|done]. intros [= <-]. by apply Hk.
  - destruct (k (c :: t)) eqn:E.
    + intros [= <-]. by apply Hk.
    + destruct (p c); [|done]. intros Ht.
      destruct (IH _ Ht) as [m ->]. by exists (c :: m).
Qed.

Lemma greedy_star_suffix (p : ascii -> bool) (k : str -> option str) :
  suffix_closed k -> suffix_closed (greedy_star p k).
Proof.
  intros Hk s. induction s as [|c t IH]; intros rest; simpl.
  - apply Hk.
  - destruct (p c); [|apply Hk].
    destruct (greedy_star p k t) as [rest'|] eqn:E; [|apply Hk].
    intros [= <-]. destruct (IH _ eq_refl) as [m ->]. by exists (c :: m).
Qed.

Lemma exec_suffix (r : regex) : suffix_closed (exec r).
Proof.
  induction r as [|item r IH]; intros s rest; simpl.
  - intros [= <-]. by exists [].
  - destruct item as [p|p|p| |].
    + destruct s as [|c t]; [done|]. destruct (p c); [|done].
      intros Ht. destruct (IH _ _ Ht) as [m ->]. by exists (c :: m).
    + by apply lazy_star_suffix.
    + by apply greedy_star_suffix.
    + destruct s; [apply IH | done].
    + destruct s as [|c t]; [apply IH|]. destruct (lineTerminator c); [apply IH | done].
Qed.

Lemma exec_length (r : regex) (s rest : str) :
  exec r s = Some rest -> exists m, s = m ++ rest /\ length s - length rest = length m.
Proof.
  intros E. destruct (exec_suffix r s rest E) as [m ->]. exists m. split; [done|].
  rewrite length_app. lia.
Qed.

Lemma search_spec (r : regex) (s : str) :
  match search r s with
  | Some (b, m, a) =>
      s = b ++ m ++ a /\ exec r (m ++ a) = Some a
      /\ forall b1 b2, b = b1 ++ b2 -> b2 <> [] -> exec r (b2 ++ m ++ a) = None
  | None => nowhere r s
  end.
Proof.
  induction s as [|c t IH]; simpl.
  - destruct (exec r []) as [rest|] eqn:E; [|done].
    destruct (exec_suffix _ _ _ E) as [m Hm]. symmetry in Hm.
    apply app_eq_nil in Hm as [-> ->]. simpl.
    repeat split; [done|]. by intros [] [].
  - destruct (exec r (c :: t)) as [rest|] eqn:E.
    + destruct (exec_length _ _ _ E) as [m [Hm Hl]]. simpl in Hl. rewrite Hl.
      rewrite Hm, take_app_length. simpl. repeat split; [by rewrite <- Hm|].
      by intros [] [].
    + destruct (search r t) as [[[b m] a]|].
      * destruct IH as (-> & Hex & Hfirst). repeat split; [done|].
        intros [|d b1] b2; simpl.
        -- intros <- _. exact E.
        -- intros [= _ ->]. by apply (Hfirst b1 b2).
      * done.
Qed.

Lemma replace_nowhere (r : regex) (template s : str) :
  search r s = None -> replace r template s = s.
Proof. unfold replace. by intros ->. Qed.

Lemma search_none_iff (r : regex) (s : str) : search r s = None <-> nowhere r s.
Proof.
  split.
  - intros E. pose proof (search_spec r s) as H. by rewrite E in H.
  - induction s as [|c t IH]; simpl; intros [-> Ht]; [done|]. by rewrite IH.
Qed.

(** Passing over the rest of a match. *)
Lemma replace_from_skip (r : regex) (template seen : str) (k : nat) (s : str) :
  k <= length s ->
  replace_from r template seen k s
  = replace_from r template (rev (take k s) ++ seen) 0 (drop k s).
Proof.
  revert seen s. induction k as [|k IH]; intros seen s Hk.
  - by rewrite take_0, drop_0.
  - destruct s as [|c t]; [simpl in Hk; lia|]. simpl in Hk.
    simpl. rewrite <- app_assoc. simpl. by rewrite IH by lia.
Qed.

Lemma replace_from_nowhere (r : regex) (template seen s : str) :
  nowhere r s -> replace_from r template seen 0 s = s.
Proof.
  revert seen. induction s as [|c t IH]; intros seen; simpl; intros [-> Ht]; [done|].
  by rewrite IH.
Qed.

Lemma replaceAll_nowhere (r : regex) (template s : str) :
  search r s = None -> replaceAll r template s = s.
Proof. intros E. apply replace_from_nowhere. by apply search_none_iff. Qed.

(** ** Stripping by the matcher *)

Lemma replace_from_strips (r : regex) (P : str -> Prop) :
  decides r P ->
  forall (n : nat) (s seen : str),
    length s <= n -> strips P s (replace_from r [] seen 0 s).
Proof.
  intros Hd. induction n as [|n IH]; intros s seen Hn.
  - destruct s; [|simpl in Hn; lia]. simpl.
    pose proof (Hd []) as H0. destruct (exec r []) as [rest|].
    + destruct H0 as (m & Hm & _ & Hne). symmetry in Hm.
      by apply app_eq_nil in Hm as [-> _].
    + constructor.
  - destruct s as [|c t].
    + simpl. pose proof (Hd []) as H0. destruct (exec r []) as [rest|].
      * destruct H0 as (m & Hm & _ & Hne). symmetry in Hm.
        by apply app_eq_nil in Hm as [-> _].
      * constructor.
    + simpl in Hn. pose proof (Hd (c :: t)) as Hc.
      change (replace_from r [] seen 0 (c :: t)) with
        (match exec r (c :: t) with
         | Some rest =>
             match length (c :: t) - length rest with
             | 0 => [] ++ c :: replace_from r [] (c :: seen) 0 t
             | S k => [] ++ replace_from r [] (c :: seen) k t
             end
         | None => c :: replace_from r [] (c :: seen) 0 t
         end).
      destruct (exec r (c :: t)) as [rest|].
      * destruct Hc as (m & Hm & HP & Hne).
        destruct m as [|c' m]; [done|]. injection Hm as <- ->.
        replace (length (c :: m ++ rest) - length rest) with (S (length m))
          by (simpl; rewrite length_app; lia).
        simpl. rewrite replace_from_skip by (rewrite length_app; lia).
        rewrite drop_app_length.
        apply (strips_word P (c :: m) rest); [done|done|].
        apply IH. rewrite length_app in Hn. lia.
      * apply strips_keep; [done|]. apply IH. lia.
Qed.

Lemma replaceAll_strips (r : regex) (P : str -> Prop) (s : str) :
  decides r P -> strips P s (replaceAll r [] s).
Proof. intros Hd. by apply (replace_from_strips r P Hd (length s)). Qed.

Lemma replace_strips_first (r : regex) (P : str -> Prop) (s : str) :
  decides r P -> strips_first P s (replace r [] s).
Proof.
  intros Hd. unfold replace. pose proof (search_spec r s) as Hs.
  destruct (search r s) as [[[b m] a]|].
  - destruct Hs as (-> & Hex & Hfirst). simpl.
    pose proof (Hd (m ++ a)) as Hm. rewrite Hex in Hm.
    destruct Hm as (m' & Hm' & HP & _). apply app_inv_tail in Hm' as <-.
    apply strips_first_word; [done|].
    intros b1 b2 m'' a' Hb Hne Hsplit.
    pose proof (Hd (b2 ++ m ++ a)) as Hb2. rewrite (Hfirst b1 b2 Hb Hne) in Hb2.
    by apply (Hb2 m'' a').
  - apply strips_first_none. intros b m a ->.
    clear -Hs Hd. induction b as [|c b IH].
    + simpl in *. pose proof (Hd (m ++ a)) as Hm.
      assert (exec r (m ++ a) = None) as E by (by destruct (m ++ a), Hs).
      rewrite E in Hm. by apply (Hm m a).
    + apply IH. simpl in Hs. by destruct Hs.
Qed.

(** ** The patterns of the name normaliser *)

Lemma exec_classes (ps : list (ascii -> bool)) (s : str) :
  match exec (map One ps) s with
  | Some rest => exists m, s = m ++ rest /\ shaped ps m
  | None => forall m rest, s = m ++ rest -> ~ shaped ps m
  end.
Proof.
  revert s. induction ps as [|p ps IH]; intros s; simpl.
  - exists []. split; [done | constructor].
  - destruct s as [|c t].
    + intros m rest Hm Hs. symmetry in Hm. apply app_eq_nil in Hm as [-> _].
      inversion Hs.
    + destruct (p c) eqn:Hp.
      * specialize (IH t). destruct (exec (map One ps) t) as [rest|].
        -- destruct IH as (m & -> & Hs). exists (c :: m). split; [done|].
           by constructor.
        -- intros m rest Hm Hs. inversion Hs as [|? c' ? m' Hc Hm']; subst.
           injection Hm as <- ->. by apply (IH m' rest).
      * intros m rest Hm Hs. inversion Hs as [|? c' ? m' Hc Hm']; subst.
        injection Hm as <- ->. congruence.
Qed.

Lemma decides_classes (p : ascii -> bool) (ps : list (ascii -> bool)) :
  decides (map One (p :: ps)) (shaped (p :: ps)).
Proof.
  intros s. pose proof (exec_classes (p :: ps) s) as H.
  destruct (exec (map One (p :: ps)) s) as [rest|]; [|done].
  destruct H as (m & -> & Hs). exists m. repeat split; [done|].
  intros ->. inversion Hs.
Qed.

Lemma decides_course : decides re_course is_course_token.
Proof.
  exact (decides_classes (chr "-") [upper; upper; upper; digit; digit; digit; chr "-"]).
Qed.

Lemma decides_date : decides re_date is_date.
Proof.
  exact (decides_classes digit
           [digit; digit; digit; chr "-"; digit; digit; chr "-"; digit; digit]).
Qed.

Lemma lazy_star_cons (p : ascii -> bool) (k : str -> option str) (c : ascii) (t : str) :
  lazy_star p k (c :: t)
  = match k (c :: t) with
    | Some rest => Some rest
    | None => if p c then lazy_star p k t else None
    end.
Proof. reflexivity. Qed.

Lemma lazy_star_tag (t : str) :
  match lazy_star dot (exec [One (chr "]")]) t with
  | Some rest => exists body, t = body ++ "]"%char :: rest /\ Forall tag_body body
  | None => forall body rest, t = body ++ "]"%char :: rest -> ~ Forall tag_body body
  end.
Proof.
  set (k := exec [One (chr "]")]).
  assert (forall c t, k (c :: t) = if chr "]" c then Some t else None) as Hk by done.
  induction t as [|c t IH].
  - simpl. by intros [] rest.
  - rewrite lazy_star_cons, Hk. destruct (chr "]" c) eqn:Hc.
    + exists []. split; [|constructor]. apply Ascii.eqb_eq in Hc as <-. done.
    + assert (dot c = negb (lineTerminator c)) as -> by done.
      destruct (lineTerminator c) eqn:Hl; cbn [negb].
      * intros [|d body] rest; simpl.
        -- intros [= -> _]. by rewrite Ascii.eqb_refl in Hc.
        -- intros [= <- _] Hf. apply Forall_cons in Hf as [Hd _].
           destruct Hd as [_ Hd]. congruence.
      * destruct (lazy_star dot k t) as [rest|].
        -- destruct IH as (body & -> & Hb). exists (c :: body). split; [done|].
           by constructor.
        -- intros [|d body] rest; simpl.
           ++ intros [= -> _]. by rewrite Ascii.eqb_refl in Hc.
           ++ intros [= <- ->] Hf. apply Forall_cons in Hf as [_ Hf].
              by apply (IH body rest).
Qed.

Lemma is_tag_inv (m rest : str) (c : ascii) (t : str) :
  is_tag m -> c :: t = m ++ rest ->
  c = "["%char /\ exists body, t = body ++ "]"%char :: rest /\ Forall tag_body body.
Proof.
  intros (body & -> & Hb) Hm. injection Hm as -> ->. split; [done|].
  exists body. by rewrite <- app_assoc.
Qed.

Lemma decides_tag : decides re_tag is_tag.
Proof.
  intros [|c t].
  - simpl. intros m rest Hm (body & -> & _). discriminate.
  - change (exec re_tag (c :: t)) with
      (if chr "[" c then lazy_star dot (exec [One (chr "]")]) t else None).
    destruct (chr "[" c) eqn:Hc.
    + apply Ascii.eqb_eq in Hc as <-. pose proof (lazy_star_tag t) as Ht.
      destruct (lazy_star dot (exec [One (chr "]")]) t) as [rest|].
      * destruct Ht as (body & -> & Hb). exists ("["%char :: body ++ ["]"%char]).
        repeat split; [simpl; by rewrite <- app_assoc| |done]. by exists body.
      * intros m rest Hm Htag.
        destruct (is_tag_inv _ _ _ _ Htag Hm) as (_ & body & -> & Hb).
        by apply (Ht body rest).
    + intros m rest Hm Htag. destruct (is_tag_inv _ _ _ _ Htag Hm) as (-> & _).
      by rewrite Ascii.eqb_refl in Hc.
Qed.

Lemma replace_from_illegal (s seen : str) :
  replace_from re_illegal [] seen 0 s = List.filter (fun c => negb (illegal c)) s.
Proof.
  revert seen. induction s as [|c t IH]; intros seen; [done|].
  cbn [replace_from exec re_illegal List.filter].
  destruct (illegal c); simpl.
  - replace (S (length t) - length t) with 1 by lia. simpl. apply IH.
  - f_equal. apply IH.
Qed.

Lemma replaceAll_illegal (s : str) :
  replaceAll re_illegal [] s = List.filter (fun c => negb (illegal c)) s.
Proof. apply replace_from_illegal. Qed.

Lemma greedy_star_all (p : ascii -> bool) (k : str -> option str) (t : str) :
  (forall s, k s = Some s) ->
  greedy_star p k t
  = Some ((fix skip (s : str) : str :=
             match s with
             | c :: s' => if p c then skip s' else s
             | [] => []
             end) t).
Proof.
  intros Hk. induction t as [|c t IH]; simpl; [apply Hk|].
  destruct (p c); [|apply Hk]. by rewrite IH.
Qed.

Lemma greedy_star_space (t : str) :
  greedy_star space (exec []) t = Some (trimStart t).
Proof. by apply greedy_star_all. Qed.

Lemma trimStart_drop (t : str) :
  length (trimStart t) <= length t
  /\ drop (length t - length (trimStart t)) t = trimStart t.
Proof.
  induction t as [|c t [IHl IHd]]; [done|]. simpl. destruct (space c).
  - split; [lia|]. replace (S (length t) - length (trimStart t))
      with (S (length t - length (trimStart t))) by lia. done.
  - split; [done|]. simpl. by rewrite Nat.sub_diag.
Qed.

Lemma collapse_runs_trimStart (t : str) :
  collapse_runs true t = collapse_runs false (trimStart t).
Proof.
  induction t as [|c t IH]; [done|]. simpl. destruct (space c) eqn:E; [done|].
  simpl. by rewrite E.
Qed.

Lemma replace_from_spaces (n : nat) (s seen : str) :
  length s <= n ->
  replace_from re_spaces (lit " ") seen 0 s = collapse_runs false s.
Proof.
  revert s seen. induction n as [|n IH]; intros s seen Hn.
  - by destruct s; [|simpl in Hn; lia].
  - destruct s as [|c t]; [done|]. simpl in Hn.
    cbn [replace_from exec re_spaces plus collapse_runs].
    destruct (space c); [|f_equal; apply IH; lia].
    rewrite greedy_star_space. destruct (trimStart_drop t) as [Hl Hd].
    replace (length (c :: t) - length (trimStart t))
      with (S (length t - length (trimStart t))) by (simpl; lia).
    simpl. f_equal. rewrite replace_from_skip by lia. rewrite Hd.
    rewrite collapse_runs_trimStart. apply IH. lia.
Qed.

Lemma replaceAll_spaces (s : str) :
  replaceAll re_spaces (lit " ") s = collapse_runs false s.
Proof. by apply (replace_from_spaces (length s)). Qed.






(** ** Name normaliser *)

Lemma cleanAssignmentName_stages (name : str) :
  exists s1 s2 s3,
    strips is_tag name s1 /\ strips is_course_token s1 s2
    /\ strips_first is_date s2 s3
    /\ cleanAssignmentName name = trim (collapse_runs false (List.filter legal s3)).
Proof.
  exists (replaceAll re_tag [] name),
    (replaceAll re_course [] (replaceAll re_tag [] name)),
    (replace re_date [] (replaceAll re_course [] (replaceAll re_tag [] name))).
  split; [apply replaceAll_strips, decides_tag|].
  split; [apply replaceAll_strips, decides_course|].
  split; [apply replace_strips_first, decides_date|].
  unfold cleanAssignmentName. by rewrite replaceAll_illegal, replaceAll_spaces.
Qed.

(** C5: [cleanAssignmentName] deletes every bracketed tag, then every
    [-XXX###-] token, then the leftmost [YYYY-MM-DD] date, then every code
    unit of the illegal set; it turns each run of white space into one space
    and trims the result.  On the example of the specification the result is
    [Essay]. *)
Theorem cleanAssignmentName_strips :
  (forall name : str,
     exists s1 s2 s3,
       strips is_tag name s1 /\ strips is_course_token s1 s2
       /\ strips_first is_date s2 s3
       /\ cleanAssignmentName name
          = trim (collapse_runs false (List.filter legal s3)))
  /\ cleanAssignmentName (lit "[HW] Essay -ENG101- 2025-03-01*") = lit "Essay".
Proof. split; [apply cleanAssignmentName_stages | vm_compute; reflexivity]. Qed.

Lemma test_false (r : regex) (s : str) : test r s = false -> search r s = None.
Proof. unfold test. by destruct (search r s). Qed.

Lemma single_spaced_collapse (b : bool) (s : str) :
  single_spaced b (collapse_runs b s).
Proof.
  revert b. induction s as [|c t IH]; intros b; [done|]. simpl.
  destruct (space c) eqn:E.
  - destruct b; [apply IH|]. simpl. by repeat split.
  - simpl. rewrite E. apply IH.
Qed.

Lemma collapse_single_spaced (b : bool) (s : str) :
  single_spaced b s -> collapse_runs b s = s.
Proof.
  revert b. induction s as [|c t IH]; intros b; [done|]. simpl.
  destruct (space c).
  - intros (-> & -> & Ht). by rewrite IH.
  - intros Ht. by rewrite IH.
Qed.

Lemma single_spaced_prefix (b : bool) (p q : str) :
  single_spaced b (p ++ q) -> single_spaced b p.
Proof.
  revert b. induction p as [|c p IH]; intros b; [done|]. simpl.
  destruct (space c).
  - intros (Hc & Hb & Ht). repeat split; [done|done|]. by apply IH.
  - apply IH.
Qed.

Lemma trimStart_suffix (s : str) : exists l, s = l ++ trimStart s.
Proof.
  induction s as [|c t [l IH]]; [by exists []|]. simpl.
  destruct (space c); [|by exists []]. exists (c :: l). simpl. by f_equal.
Qed.

Lemma trimEnd_prefix (s : str) : exists l, s = trimEnd s ++ l.
Proof.
  unfold trimEnd. destruct (trimStart_suffix (rev s)) as [l Hl].
  exists (rev l). apply (f_equal (@rev ascii)) in Hl.
  by rewrite rev_involutive, rev_app_distr in Hl.
Qed.

Lemma single_spaced_trimStart (b b' : bool) (s : str) :
  single_spaced b s -> single_spaced b' (trimStart s).
Proof.
  revert b. induction s as [|c t IH]; intros b; [done|]. simpl.
  destruct (space c) eqn:E.
  - intros (_ & _ & Ht). by apply (IH true).
  - simpl. by rewrite E.
Qed.

Lemma single_spaced_trim (s : str) :
  single_spaced false s -> single_spaced false (trim s).
Proof.
  intros H. unfold trim. destruct (trimEnd_prefix (trimStart s)) as [l Hl].
  apply (single_spaced_prefix _ _ l). rewrite <- Hl.
  by apply (single_spaced_trimStart false).
Qed.

Lemma no_lead_trimStart (s : str) : no_lead (trimStart s).
Proof.
  induction s as [|c t IH]; [done|]. simpl. by destruct (space c) eqn:E.
Qed.

Lemma trimStart_no_lead (s : str) : no_lead s -> trimStart s = s.
Proof. destruct s as [|c t]; [done|]. simpl. by intros ->. Qed.

Lemma no_lead_prefix (p q : str) : no_lead (p ++ q) -> no_lead p.
Proof. by destruct p. Qed.

Lemma trimEnd_idem (s : str) : trimEnd (trimEnd s) = trimEnd s.
Proof.
  unfold trimEnd. rewrite rev_involutive.
  by rewrite (trimStart_no_lead _ (no_lead_trimStart _)).
Qed.

Lemma trim_idem (s : str) : trim (trim s) = trim s.
Proof.
  unfold trim at 1. rewrite trimStart_no_lead.
  - unfold trim. apply trimEnd_idem.
  - unfold trim. destruct (trimEnd_prefix (trimStart s)) as [l Hl].
    apply (no_lead_prefix _ l). rewrite <- Hl. apply no_lead_trimStart.
Qed.

Lemma Forall_legal_filter (s : str) :
  Forall (fun c => legal c = true) s -> List.filter legal s = s.
Proof.
  induction 1 as [|c t Hc Ht IH]; [done|]. simpl. by rewrite Hc, IH.
Qed.

Lemma Forall_legal_collapse (b : bool) (s : str) :
  Forall (fun c => legal c = true) s ->
  Forall (fun c => legal c = true) (collapse_runs b s).
Proof.
  intros H. revert b. induction H as [|c t Hc Ht IH]; intros b; [done|]. simpl.
  destruct (space c); [destruct b|]; try apply IH; constructor; try done; apply IH.
Qed.

Lemma Forall_trim (P : ascii -> Prop) (s : str) : Forall P s -> Forall P (trim s).
Proof.
  intros H. unfold trim.
  destruct (trimStart_suffix s) as [l1 H1].
  destruct (trimEnd_prefix (trimStart s)) as [l2 H2].
  rewrite H1, H2 in H. apply Forall_app in H as [_ H]. by apply Forall_app in H as [H _].
Qed.

(** What the last three steps give is left as it is by these steps. *)
Lemma tidy_idem (s : str) :
  let y := trim (collapse_runs false (List.filter legal s)) in
  trim (collapse_runs false (List.filter legal y)) = y.
Proof.
  intros y.
  assert (Forall (fun c => legal c = true) y) as Hlegal.
  { apply Forall_trim, Forall_legal_collapse. apply List.Forall_forall.
    intros c Hc. by apply filter_In in Hc as [_ Hc]. }
  assert (single_spaced false y) as Hspaced.
  { apply single_spaced_trim, single_spaced_collapse. }
  rewrite (Forall_legal_filter _ Hlegal), (collapse_single_spaced _ _ Hspaced).
  apply trim_idem.
Qed.

(** C6: when one pass leaves no bracketed tag, no [-XXX###-] token and no
    date behind, a second pass changes nothing. *)
Theorem cleanAssignmentName_idempotent (x : str) :
  test re_tag (cleanAssignmentName x) = false ->
  test re_course (cleanAssignmentName x) = false ->
  test re_date (cleanAssignmentName x) = false ->
  cleanAssignmentName (cleanAssignmentName x) = cleanAssignmentName x.
Proof.
  intros Htag Hcourse Hdate.
  destruct (cleanAssignmentName_stages x) as (s1 & s2 & s3 & _ & _ & _ & Hx).
  apply test_false in Htag, Hcourse, Hdate.
  unfold cleanAssignmentName at 1.
  rewrite (replaceAll_nowhere _ _ _ Htag), (replaceAll_nowhere _ _ _ Hcourse).
  rewrite (replace_nowhere _ _ _ Hdate).
  rewrite replaceAll_illegal, replaceAll_spaces, Hx. apply tidy_idem.
Qed.

Lemma cleanAssignmentName_idempotent_witness :
  cleanAssignmentName (cleanAssignmentName (lit "[HW] Essay -ENG101- 2025-03-01*"))
  = cleanAssignmentName (lit "[HW] Essay -ENG101- 2025-03-01*").
Proof.
  apply cleanAssignmentName_idempotent; vm_compute; reflexivity.
Defined.

(** The condition of C6 is needed: a second date is deleted by a second
    pass only. *)
Example cleanAssignmentName_second_date :
  cleanAssignmentName (lit "Quiz 2025-03-01 2025-03-08") = lit "Quiz 2025-03-08"
  /\ cleanAssignmentName (lit "Quiz 2025-03-08") = lit "Quiz".
Proof. split; vm_compute; reflexivity. Qed.

(** ** The details section *)

Lemma exec_text (h : str) (r : regex) (s : str) :
  exec (map (fun a => One (chr a)) h ++ r) s
  = if startsWith h s then exec r (drop (length h) s) else None.
Proof.
  revert s. induction h as [|a h IH]; intros s; [done|].
  destruct s as [|c t]; [done|]. simpl. unfold chr at 1.
  destruct (Ascii.eqb a c); [apply IH | done].
Qed.

Lemma greedy_any_all (k : str -> option str) (s : str) :
  k [] = Some [] -> greedy_star any k s = Some [].
Proof.
  intros Hk. induction s as [|c t IH]; [done|]. simpl. rewrite IH.
  unfold any. by destruct (space c).
Qed.

Lemma greedy_any_end (s : str) : greedy_star any (exec [EndInput]) s = Some [].
Proof. by apply greedy_any_all. Qed.

Lemma exec_details (s : str) :
  exec re_details s = if startsWith (lit detailsHeading) s then Some [] else None.
Proof.
  unfold re_details, text. rewrite exec_text.
  destruct (startsWith _ s); [|done]. apply greedy_any_end.
Qed.

Lemma search_details (s : str) :
  search re_details s
  = match indexOf s (lit detailsHeading) with
    | Some n => Some (take n s, drop n s, [])
    | None => None
    end.
Proof.
  induction s as [|c t IH].
  - done.
  - cbn [search indexOf]. rewrite exec_details.
    destruct (startsWith _ (c :: t)).
    + replace (length (c :: t) - length (@nil ascii)) with (length (c :: t))
        by (simpl; lia).
      by rewrite firstn_all.
    + rewrite IH. by destruct (indexOf t _).
Qed.

Lemma indexOf_none (s p : str) : includes s p = false -> indexOf s p = None.
Proof.
  induction s as [|c t IH].
  - simpl. rewrite orb_false_r. by intros ->.
  - change (includes (c :: t) p) with (startsWith p (c :: t) || includes t p).
    intros Hf. apply orb_false_iff in Hf as [Hs Ht]. cbn [indexOf].
    by rewrite Hs, IH.
Qed.

Lemma indexOf_first (s p : str) (n : nat) :
  indexOf s p = Some n ->
  startsWith p (drop n s) = true
  /\ forall k, k < n -> startsWith p (drop k s) = false.
Proof.
  revert n. induction s as [|c t IH]; intros n; cbn [indexOf].
  - destruct (startsWith p []) eqn:E; [|done]. intros [= <-]. split; [done|lia].
  - destruct (startsWith p (c :: t)) eqn:E.
    + intros [= <-]. split; [done|lia].
    + destruct (indexOf t p) as [m|]; [|done]. intros [= <-].
      destruct (IH m eq_refl) as [Hm Hlt]. split; [done|].
      intros [|k] Hk; [done|]. apply Hlt. lia.
Qed.

(** ** Effects on the state of a run *)

Section Effects.
Context {W Net : Type}.
Implicit Types s : run W Net.

Lemma effect_refl s : effect 0 0 0 0 s s.
Proof. unfold effect. repeat split; lia. Qed.

Lemma effect_trans (dc du dd ds dc' du' dd' ds' : nat) s1 s2 s3 :
  effect dc du dd ds s1 s2 -> effect dc' du' dd' ds' s2 s3 ->
  effect (dc + dc') (du + du') (dd + dd') (ds + ds') s1 s3.
Proof.
  unfold effect. intros (? & ? & ? & ? & ? & ? & ?) (? & ? & ? & ? & ? & ? & ?).
  repeat split; try congruence; lia.
Qed.

Lemma effect_framed_l (dc du dd ds : nat) s1 s2 s3 :
  effect 0 0 0 0 s1 s2 -> effect dc du dd ds s2 s3 -> effect dc du dd ds s1 s3.
Proof. intros H1 H2. apply (effect_trans _ _ _ _ _ _ _ _ _ _ _ H1 H2). Qed.

Lemma effect_framed_r (dc du dd ds : nat) s1 s2 s3 :
  effect dc du dd ds s1 s2 -> effect 0 0 0 0 s2 s3 -> effect dc du dd ds s1 s3.
Proof.
  intros H1 H2. pose proof (effect_trans _ _ _ _ _ _ _ _ _ _ _ H1 H2) as H.
  by rewrite !Nat.add_0_r in H.
Qed.

Lemma effect_set_host (w : W) s : effect 0 0 0 0 s (set_host w s).
Proof. unfold effect. simpl. repeat split; lia. Qed.

Lemma framed_ret {A : Type} (a : A) : framed (ret a : M (run W Net) A).
Proof. intros s r s' [= <- <-]. apply effect_refl. Qed.

Lemma framed_throw {A : Type} (e : str) : framed (throw e : M (run W Net) A).
Proof. intros s r s' [= <- <-]. apply effect_refl. Qed.

Lemma framed_continue {A : Type} : framed (continue : M (run W Net) A).
Proof. intros s r s' [= <- <-]. apply effect_refl. Qed.

Lemma framed_get : framed (get : M (run W Net) (run W Net)).
Proof. intros s r s' [= <- <-]. apply effect_refl. Qed.

Lemma framed_call {A : Type} (op : W -> result A * W) :
  framed (call op : M (run W Net) A).
Proof.
  intros s r s'. unfold call. destruct (op (host s)) as [[a|e] w];
    intros [= <- <-]; apply effect_set_host.
Qed.

Lemma framed_bind {A B : Type} (m : M (run W Net) A) (f : A -> M (run W Net) B) :
  framed m -> (forall a, framed (f a)) -> framed (bind m f).
Proof.
  intros Hm Hf s r s'. unfold bind. destruct (m s) as [[a|e|] s1] eqn:E.
  - intros Hfa. apply (effect_framed_l _ _ _ _ _ s1); [by eapply Hm | by eapply Hf].
  - intros [= <- <-]. by eapply Hm.
  - intros [= <- <-]. by eapply Hm.
Qed.

Lemma framed_try_catch {A : Type} (m : M (run W Net) A) (h : str -> M (run W Net) A) :
  framed m -> (forall e, framed (h e)) -> framed (try_catch m h).
Proof.
  intros Hm Hh s r s'. unfold try_catch. destruct (m s) as [[a|e|] s1] eqn:E.
  - intros [= <- <-]. by eapply Hm.
  - intros He. apply (effect_framed_l _ _ _ _ _ s1); [by eapply Hm | by eapply Hh].
  - intros [= <- <-]. by eapply Hm.
Qed.

(** How a sequence and a handler end. *)
Lemma bind_inv {A B : Type} (m : M (run W Net) A) (f : A -> M (run W Net) B)
  s (r : control B) s' :
  bind m f s = (r, s') ->
  (exists a s1, m s = (Normal a, s1) /\ f a s1 = (r, s'))
  \/ (exists e, m s = (Throws e, s') /\ r = Throws e)
  \/ (m s = (Continues, s') /\ r = Continues).
Proof.
  unfold bind. destruct (m s) as [[a|e|] s1].
  - intros Hf. left. by exists a, s1.
  - intros [= <- <-]. right. left. by exists e.
  - intros [= <- <-]. right. by right.
Qed.

Lemma try_catch_inv {A : Type} (m : M (run W Net) A) (h : str -> M (run W Net) A)
  s (r : control A) s' :
  try_catch m h s = (r, s') ->
  (exists e s1, m s = (Throws e, s1) /\ h e s1 = (r, s'))
  \/ (m s = (r, s') /\ forall e, r <> Throws e).
Proof.
  unfold try_catch. destruct (m s) as [[a|e|] s1].
  - intros [= <- <-]. by right.
  - intros Hh. left. by exists e, s1.
  - intros [= <- <-]. by right.
Qed.
End Effects.

Section PluginEffects.
Context {W Net num : Type} `{Obsidian W} `{JSNumber num}.
Variable settings : CanvasAssignmentProcessorSettings.
Implicit Types s : run W Net.

Lemma framed_ensureFolder (folder : str) :
  framed (ensureFolder folder : M (run W Net) unit).
Proof.
  apply framed_bind; [apply framed_call|]. intros [|]; [apply framed_ret | apply framed_call].
Qed.

Lemma framed_settle {A : Type} (r : result A) :
  framed (settle r : M (run W Net) A).
Proof. destruct r; [apply framed_ret | apply framed_throw]. Qed.

Lemma framed_updateDueDate (f : TFile) (d : str) :
  framed (updateDueDate f d : M (run W Net) bool).
Proof.
  apply framed_try_catch; [|intros; apply framed_ret].
  apply framed_bind; [apply framed_call|]. intros content.
  apply framed_bind;
    [destruct (truthy d); [apply framed_settle | apply framed_ret]|].
  intros formattedDate.
  apply framed_bind; [apply framed_call|]. intros _. apply framed_ret.
Qed.


Lemma call_inv {A : Type} (op : W -> result A * W) s (r : control A) s' :
  call op s = (r, s') -> effect 0 0 0 0 s s' /\ r <> Continues.
Proof.
  intros Hc. split; [by eapply framed_call|].
  unfold call in Hc. by destruct (op (host s)) as [[a|e] w]; injection Hc as <- <-.
Qed.

Ltac inv_bind H :=
  let a := fresh "a" in
  let e := fresh "e" in
  let s1 := fresh "s1" in
  let H1 := fresh "Hm" in
  let E := fresh "E" in
  apply bind_inv in H as [(a & s1 & H1 & H) | [(e & H & E) | (H & E)]];
  [ | first [discriminate E | rewrite E in *; clear E]
    | first [discriminate E | rewrite E in *; clear E] ].

Ltac inv_call H :=
  let Hf := fresh "Hf" in
  let Hn := fresh "Hn" in
  apply call_inv in H as [Hf Hn]; try done.

Lemma effect_incr_created s : effect 1 0 0 0 s (incr_created s).
Proof. unfold effect. simpl. repeat split; lia. Qed.

Lemma effect_incr_updated s : effect 0 1 0 0 s (incr_updated s).
Proof. unfold effect. simpl. repeat split; lia. Qed.

Lemma effect_incr_dueDateUpdated s : effect 0 0 1 0 s (incr_dueDateUpdated s).
Proof. unfold effect. simpl. repeat split; lia. Qed.

Lemma effect_incr_skipped s : effect 0 0 0 1 s (incr_skipped s).
Proof. unfold effect. simpl. repeat split; lia. Qed.

Lemma createNote_effect (newNotePath : str) (a : CanvasAssignment num)
  s (r : control unit) s' :
  createNote settings newNotePath a s = (r, s') ->
  match r with
  | Normal _ => effect 1 0 0 0 s s'
  | Throws _ => effect 0 0 0 0 s s'
  | Continues => False
  end.
Proof.
  unfold createNote. intros Hr. inv_bind Hr; try done.
  injection Hm as <- <-.
  destruct (getAbstractFileByPath _ _) as [templateFile|].
  - inv_bind Hr; [|by inv_call Hr|by inv_call Hr]. inv_call Hm.
    inv_bind Hr; [|inv_call Hr; by eapply effect_framed_l|by inv_call Hr].
    inv_call Hm.
    inv_bind Hr; [|inv_call Hr; by repeat (eapply effect_framed_l; [eassumption|])
                  |by inv_call Hr].
    inv_call Hm. injection Hr as <- <-.
    repeat (eapply effect_framed_l; [eassumption|]). apply effect_incr_created.
  - injection Hr as <- <-. apply effect_refl.
Qed.

Lemma updateNote_effect (f : TFile) (a : CanvasAssignment num)
  s (r : control unit) s' :
  updateNote f a s = (r, s') ->
  match r with
  | Normal _ => effect 0 1 0 0 s s'
  | Throws _ => effect 0 0 0 0 s s'
  | Continues => False
  end.
Proof.
  unfold updateNote. intros Hr.
  inv_bind Hr; [|by inv_call Hr|by inv_call Hr]. inv_call Hm.
  inv_bind Hr; [|inv_call Hr; by eapply effect_framed_l|by inv_call Hr].
  inv_call Hm. injection Hr as <- <-.
  repeat (eapply effect_framed_l; [eassumption|]). apply effect_incr_updated.
Qed.

Lemma updateDueDate_inv (f : TFile) (d : str) s (r : control bool) s' :
  updateDueDate f d s = (r, s') -> effect 0 0 0 0 s s' /\ exists b, r = Normal b.
Proof.
  intros Hr. split; [by eapply framed_updateDueDate|].
  unfold updateDueDate in Hr. apply try_catch_inv in Hr as [(e & s1 & _ & Hr) | [Hr Hne]].
  - injection Hr as <- _. by exists false.
  - inv_bind Hr; [|by destruct (Hne e)|by inv_call Hr].
    inv_bind Hr; [|by destruct (Hne e)|].
    + inv_bind Hr; [|by destruct (Hne e)|by inv_call Hr].
      injection Hr as <- _. by exists true.
    + destruct (truthy d); [|done].
      by destruct (imported_moment_format d _).
Qed.

Lemma reconcileDueDate_effect (f : TFile) (d : str) s (r : control unit) s' :
  reconcileDueDate f d s = (r, s') ->
  match r with
  | Normal _ => exists dd ds, dd + ds <= 1 /\ effect 0 0 dd ds s s'
  | Throws _ => effect 0 0 0 0 s s'
  | Continues => False
  end.
Proof.
  unfold reconcileDueDate. intros Hr.
  inv_bind Hr; [|by inv_call Hr|by inv_call Hr]. inv_call Hm.
  destruct (negb _).
  - inv_bind Hr.
    + apply updateDueDate_inv in Hm as [Hu _]. destruct a0; injection Hr as <- <-.
      * exists 1, 0. split; [lia|].
        do 2 (eapply effect_framed_l; [eassumption|]). apply effect_incr_dueDateUpdated.
      * exists 0, 0. split; [lia|]. by eapply effect_framed_l.
    + by apply updateDueDate_inv in Hr as [_ [b Hb]].
    + by apply updateDueDate_inv in Hr as [_ [b Hb]].
  - injection Hr as <- <-. exists 0, 1. split; [lia|].
    eapply effect_framed_l; [eassumption|]. apply effect_incr_skipped.
Qed.

(** The note of an assignment: what [reconcileNote] counts. *)
Lemma reconcileNote_effect (a : CanvasAssignment num) s (r : control unit) s' :
  reconcileNote settings a s = (r, s') ->
  let found :=
    findExistingAssignmentFile (directoryPathOf settings a)
      (cleanAssignmentName (a_name a)) (host s) in
  let changed :=
    contentChanged (processedAssignments s !! assignmentKeyOf a)
      (getAssignmentHash a) in
  match r with
  | Normal _ =>
      match found with
      | None => effect 1 0 0 0 s s'
      | Some _ =>
          exists dd ds, dd + ds <= 1
            /\ effect 0 (if changed then 1 else 0) dd ds s s'
      end
  | Continues => effect 0 0 0 0 s s'
  | Throws _ => exists du, du <= 1 /\ effect 0 du 0 0 s s'
  end.
Proof.
  intros Hr found changed. unfold reconcileNote in Hr.
  inv_bind Hr; try done. injection Hm as <- <-. fold found changed in Hr.
  clearbody found changed. destruct found as [f|].
  - inv_bind Hr.
    + assert (effect 0 (if changed then 1 else 0) 0 0 s s1) as Hup.
      { destruct changed.
        - apply try_catch_inv in Hm as [(e & s2 & _ & Hm) | [Hm _]]; [done|].
          by apply updateNote_effect in Hm.
        - injection Hm as _ <-. apply effect_refl. }
      apply reconcileDueDate_effect in Hr. destruct r as [[]|e|]; [| |done].
      * destruct Hr as (dd & ds & Hle & Hr). exists dd, ds. split; [done|].
        pose proof (effect_trans _ _ _ _ _ _ _ _ _ _ _ Hup Hr) as Ht.
        rewrite !Nat.add_0_r in Ht. exact Ht.
      * exists (if changed then 1 else 0). split; [destruct changed; lia|].
        by eapply effect_framed_r.
    + destruct changed; [|done].
      apply try_catch_inv in Hr as [(e' & s2 & _ & Hr) | [Hr Hne]]; [done|].
      by destruct (Hne e).
    + destruct changed; [|done].
      apply try_catch_inv in Hr as [(e' & s2 & Hm & Hr) | [Hr Hne]].
      * injection Hr as <-. by apply updateNote_effect in Hm.
      * by apply updateNote_effect in Hr.
  - apply try_catch_inv in Hr as [(e' & s2 & Hm & Hr) | [Hr Hne]].
    + injection Hr as <- <-. by apply createNote_effect in Hm.
    + apply createNote_effect in Hr. destruct r as [[]|e|]; [done| |done].
      by destruct (Hne e).
Qed.
Lemma framed_folders (a : CanvasAssignment num) :
  framed (try_catch
            (bind (ensureFolder (termFolder settings)) (fun _ =>
             bind (ensureFolder (termFolder settings ++ lit "/" ++ a_course a)) (fun _ =>
             ensureFolder (directoryPathOf settings a))))
            (fun _ => continue) : M (run W Net) unit).
Proof.
  apply framed_try_catch; [|intros; apply framed_continue].
  repeat (apply framed_bind; [apply framed_ensureFolder|intros _]).
  apply framed_ensureFolder.
Qed.

(** One turn of the loop: the folders, then the note, then the store. *)
Lemma reconcile_inv (a : CanvasAssignment num) s (r : control unit) s' :
  reconcile settings a s = (r, s') ->
  exists s1, effect 0 0 0 0 s s1
    /\ match r with
       | Normal _ =>
           exists s2, reconcileNote settings a s1 = (Normal tt, s2) /\ s' = stored a s2
       | Continues => s' = s1 \/ reconcileNote settings a s1 = (Continues, s')
       | Throws e => reconcileNote settings a s1 = (Throws e, s')
       end.
Proof.
  unfold reconcile. intros Hr. inv_bind Hr.
  - exists s1. split; [by eapply framed_folders|].
    inv_bind Hr.
    + injection Hr as <- <-. exists s0. by destruct a1.
    + done.
    + by right.
  - apply try_catch_inv in Hr as [(e' & s2 & _ & Hr) | [Hr Hne]]; [done|].
    by destruct (Hne e).
  - exists s'. split; [by eapply framed_folders|]. by left.
Qed.

Lemma reconcile_store (a : CanvasAssignment num) s (r : control unit) s' :
  reconcile settings a s = (r, s') ->
  match r with
  | Normal _ =>
      processedAssignments s'
      = <[assignmentKeyOf a := getAssignmentHash a]> (processedAssignments s)
  | _ => processedAssignments s' = processedAssignments s
  end.
Proof.
  intros Hr. apply reconcile_inv in Hr as (s1 & Hs1 & Hr).
  assert (processedAssignments s1 = processedAssignments s) as E1 by apply Hs1.
  destruct r as [[]|e|].
  - destruct Hr as (s2 & Hn & ->). apply reconcileNote_effect in Hn. simpl.
    rewrite <- E1. f_equal.
    destruct (findExistingAssignmentFile _ _ _);
      [destruct Hn as (dd & ds & _ & Hn)|]; apply Hn.
  - apply reconcileNote_effect in Hr as (du & _ & Hr). rewrite <- E1. apply Hr.
  - destruct Hr as [-> | Hr]; [done|].
    apply reconcileNote_effect in Hr. rewrite <- E1. apply Hr.
Qed.

Lemma reconcile_effect (a : CanvasAssignment num) s (r : control unit) s' :
  reconcile settings a s = (r, s') ->
  let changed :=
    contentChanged (processedAssignments s !! assignmentKeyOf a)
      (getAssignmentHash a) in
  match r with
  | Normal _ =>
      exists s2 dc du dd ds, s' = stored a s2 /\ effect dc du dd ds s s2
        /\ ((dc, du, dd, ds) = (1, 0, 0, 0)
            \/ (dc = 0 /\ du = (if changed then 1 else 0) /\ dd + ds <= 1))
  | Continues => effect 0 0 0 0 s s'
  | Throws _ => exists du, du <= 1 /\ effect 0 du 0 0 s s'
  end.
Proof.
  intros Hr changed. apply reconcile_inv in Hr as (s1 & Hs1 & Hr).
  assert (processedAssignments s1 = processedAssignments s) as E1 by apply Hs1.
  destruct r as [[]|e|].
  - destruct Hr as (s2 & Hn & ->). apply reconcileNote_effect in Hn.
    rewrite E1 in Hn. fold changed in Hn. exists s2.
    destruct (findExistingAssignmentFile _ _ _).
    + destruct Hn as (dd & ds & Hle & Hn).
      exists 0, (if changed then 1 else 0), dd, ds.
      split; [done|]. split; [by eapply effect_framed_l|]. by right.
    + exists 1, 0, 0, 0. split; [done|]. split; [by eapply effect_framed_l|]. by left.
  - apply reconcileNote_effect in Hr as (du & Hle & Hr). exists du.
    split; [done|]. by eapply effect_framed_l.
  - destruct Hr as [-> | Hr]; [done|]. apply reconcileNote_effect in Hr.
    by eapply effect_framed_l.
Qed.






Lemma for_of_app {A : Type} (l1 l2 : list A) (body : A -> M (run W Net) unit) s s1 :
  for_of l1 body s = (Normal tt, s1) ->
  for_of (l1 ++ l2) body s = for_of l2 body s1.
Proof.
  revert s. induction l1 as [|x l1 IH]; intros s; simpl.
  - by intros [= <-].
  - destruct (body x s) as [[[]|e|] s0]; [apply IH | done | apply IH].
Qed.

Lemma for_of_reconcile_store (l : list (CanvasAssignment num)) s (r : control unit) s'
  (k : str) :
  for_of l (reconcile settings) s = (r, s') ->
  processedAssignments s' !! k = processedAssignments s !! k
  \/ exists b, b ∈ l /\ assignmentKeyOf b = k
       /\ processedAssignments s' !! k = Some (getAssignmentHash b).
Proof.
  revert s. induction l as [|a l IH]; intros s; simpl.
  - intros [= _ <-]. by left.
  - destruct (reconcile settings a s) as [[[]|e|] s1] eqn:Ha;
      apply reconcile_store in Ha.
    + intros Hl. destruct (IH _ Hl) as [E | (b & Hb & Hk & E)].
      * rewrite E, Ha. destruct (decide (assignmentKeyOf a = k)) as [Hk | Hk].
        -- right. exists a. split; [apply list_elem_of_here|]. split; [done|].
           by rewrite <- Hk, lookup_insert_eq.
        -- left. by rewrite lookup_insert_ne.
      * right. exists b. split; [by apply list_elem_of_further|]. done.
    + intros [= _ <-]. left. by rewrite Ha.
    + intros Hl. destruct (IH _ Hl) as [E | (b & Hb & Hk & E)].
      * left. by rewrite E, Ha.
      * right. exists b. split; [by apply list_elem_of_further|]. done.
Qed.

(** C8: an assignment whose turn of the loop completes, whichever branch it
    took, leaves its fingerprint in the store under its key; at the end of the
    loop the entry under this key is the fingerprint of this assignment or of
    a later one of the same fetch with the same key. *)
Theorem store_reflects_fetch (a : CanvasAssignment num) s s'
  (before after : list (CanvasAssignment num)) (t t1 t2 t' : run W Net)
  (r : control unit) :
  (reconcile settings a s = (Normal tt, s') ->
   processedAssignments s' !! assignmentKeyOf a = Some (getAssignmentHash a))
  /\ (for_of before (reconcile settings) t = (Normal tt, t1) ->
      reconcile settings a t1 = (Normal tt, t2) ->
      for_of after (reconcile settings) t2 = (r, t') ->
      for_of (before ++ a :: after) (reconcile settings) t = (r, t')
      /\ exists b, b ∈ a :: after /\ assignmentKeyOf b = assignmentKeyOf a
           /\ processedAssignments t' !! assignmentKeyOf a
              = Some (getAssignmentHash b)).
Proof.
  split.
  - intros Hr. apply reconcile_store in Hr. rewrite Hr. apply lookup_insert_eq.
  - intros Hbefore Ha Hafter. split.
    + rewrite (for_of_app _ _ _ _ _ Hbefore). simpl. by rewrite Ha.
    + apply reconcile_store in Ha.
      destruct (for_of_reconcile_store _ _ _ _ (assignmentKeyOf a) Hafter)
        as [E | (b & Hb & Hk & E)].
      * exists a. split; [apply list_elem_of_here|]. split; [done|].
        by rewrite E, Ha, lookup_insert_eq.
      * exists b. split; [by apply list_elem_of_further|]. done.
Qed.

(** The new text of a note: the text before the heading, then the details
    written anew. *)
Lemma updatedContent_at (body : str) (a : CanvasAssignment num) (n : nat) :
  indexOf body (lit detailsHeading) = Some n ->
  updatedContent body a
  = take n body
    ++ GetSubstitution (drop n body) (take n body) [] (detailsTemplate a).
Proof.
  intros Hn. unfold updatedContent, replace. rewrite search_details, Hn.
  by rewrite app_nil_r.
Qed.

Lemma updatedContent_without (body : str) (a : CanvasAssignment num) :
  includes body (lit detailsHeading) = false -> updatedContent body a = body.
Proof.
  intros Hn. unfold updatedContent, replace.
  by rewrite search_details, (indexOf_none _ _ Hn).
Qed.

(** The turn of a note that exists and whose content changed. *)
Lemma reconcileNote_changed (a : CanvasAssignment num) s (f : TFile) (body : str)
  (w1 : W) :
  findExistingAssignmentFile (directoryPathOf settings a)
    (cleanAssignmentName (a_name a)) (host s) = Some f ->
  contentChanged (processedAssignments s !! assignmentKeyOf a)
    (getAssignmentHash a) = true ->
  vault_read f (host s) = (Ok body, w1) ->
  reconcileNote settings a s
  = match vault_modify f (updatedContent body a) w1 with
    | (Ok _, w2) =>
        reconcileDueDate f (formatDueDate a) (incr_updated (set_host w2 s))
    | (Threw _, w2) => (Continues, set_host w2 s)
    end.
Proof.
  intros Hfound Hchanged Hread.
  unfold reconcileNote, bind at 1, get. cbv zeta. rewrite Hfound, Hchanged.
  unfold bind at 1, try_catch, updateNote, bind at 1, call at 1. rewrite Hread.
  unfold bind at 1, call at 1. simpl host.
  by destruct (vault_modify f (updatedContent body a) w1) as [[[]|e] w2].
Qed.

(** C9: when the note exists and the content changed, the text written is
    the text of the note up to the first occurrence of the heading, as it
    was, followed by the details written anew. *)
Theorem content_update_keeps_prefix (a : CanvasAssignment num) s (f : TFile)
  (body : str) (w1 : W) (n : nat) :
  findExistingAssignmentFile (directoryPathOf settings a)
    (cleanAssignmentName (a_name a)) (host s) = Some f ->
  contentChanged (processedAssignments s !! assignmentKeyOf a)
    (getAssignmentHash a) = true ->
  vault_read f (host s) = (Ok body, w1) ->
  indexOf body (lit detailsHeading) = Some n ->
  let written :=
    take n body
    ++ GetSubstitution (drop n body) (take n body) [] (detailsTemplate a) in
  take n written = take n body
  /\ startsWith (lit detailsHeading) (drop n body) = true
  /\ (forall k, k < n -> startsWith (lit detailsHeading) (drop k body) = false)
  /\ reconcileNote settings a s
     = match vault_modify f written w1 with
       | (Ok _, w2) =>
           reconcileDueDate f (formatDueDate a) (incr_updated (set_host w2 s))
       | (Threw _, w2) => (Continues, set_host w2 s)
       end.
Proof.
  intros Hfound Hchanged Hread Hn written.
  destruct (indexOf_first _ _ _ Hn) as [Hat Hfirst].
  assert (n <= length body) as Hle.
  { destruct (decide (n <= length body)) as [|Hgt]; [done|].
    rewrite drop_ge in Hat by lia. done. }
  repeat split; [|done|done|].
  - unfold written. rewrite take_app_le by (rewrite length_take; lia).
    by rewrite take_take, Nat.min_id.
  - rewrite (reconcileNote_changed _ _ _ _ _ Hfound Hchanged Hread).
    by rewrite (updatedContent_at _ _ _ Hn).
Qed.

(** C10: when the note exists, the content changed and the text of the note
    has no heading, the text is written back as it was and the updated
    counter grows by one all the same. *)
Theorem content_update_without_heading (a : CanvasAssignment num) s (f : TFile)
  (body : str) (w1 : W) :
  findExistingAssignmentFile (directoryPathOf settings a)
    (cleanAssignmentName (a_name a)) (host s) = Some f ->
  contentChanged (processedAssignments s !! assignmentKeyOf a)
    (getAssignmentHash a) = true ->
  vault_read f (host s) = (Ok body, w1) ->
  includes body (lit detailsHeading) = false ->
  updatedContent body a = body
  /\ reconcileNote settings a s
     = match vault_modify f body w1 with
       | (Ok _, w2) =>
           reconcileDueDate f (formatDueDate a) (incr_updated (set_host w2 s))
       | (Threw _, w2) => (Continues, set_host w2 s)
       end
  /\ (forall w2, updatedCount (incr_updated (set_host w2 s)) = S (updatedCount s)).
Proof.
  intros Hfound Hchanged Hread Hnone.
  pose proof (updatedContent_without _ a Hnone) as Hsame.
  split; [done|]. split; [|done].
  rewrite (reconcileNote_changed _ _ _ _ _ Hfound Hchanged Hread). by rewrite Hsame.
Qed.

End PluginEffects.


(** ** The essay of ENG101, run on the host kept in memory *)

Lemma pair_of_fst {A B : Type} (p : A * B) (a : A) : fst p = a -> p = (a, snd p).
Proof. intros <-. by destruct p. Qed.

(** A run on the host kept in memory ends as stated: its outcome is computed,
    its last state is the one the run gives. *)
Ltac by_outcome :=
  unfold essay_end, essay_run_end;
  match goal with
  | |- ?m = (?r, _) => apply (pair_of_fst m r); vm_compute; reflexivity
  end.



(** A turn that completes and counts nothing: the note of the essay exists,
    nothing is stored about it, its due date moved, and [updateDueDate]
    answers false because the imported [moment] cannot be called.  A turn
    ended by [continue]: the lab, in a vault without the template. *)
Example turns_that_count_nothing :
  fst (reconcile DEFAULT_SETTINGS essay_postponed bundled_start) = Normal tt
  /\ counts (snd (reconcile DEFAULT_SETTINGS essay_postponed bundled_start))
     = (0, 0, 0, 0)
  /\ fst (reconcile DEFAULT_SETTINGS lab bare_start) = Continues
  /\ counts (snd (reconcile DEFAULT_SETTINGS lab bare_start)) = (0, 0, 0, 0).
Proof. repeat split; vm_compute; reflexivity. Qed.

Example essay_summary :
  notices essay_run_end
  = [lit "Created 0 new notes, updated 1, updated 0 due dates, skipped 1 unchanged notes"].
Proof. vm_compute. reflexivity. Qed.

Lemma store_reflects_fetch_witness :
  processedAssignments essay_end !! assignmentKeyOf essay
  = Some (getAssignmentHash essay)
  /\ exists b, b ∈ [essay] /\ assignmentKeyOf b = assignmentKeyOf essay
       /\ processedAssignments essay_end !! assignmentKeyOf essay
          = Some (getAssignmentHash b).
Proof.
  split.
  - apply (proj1 (store_reflects_fetch DEFAULT_SETTINGS essay essay_start essay_end
                    [] [] essay_start essay_start essay_end essay_end (Normal tt))).
    by_outcome.
  - apply (proj2 (store_reflects_fetch DEFAULT_SETTINGS essay essay_start essay_end
                    [] [] essay_start essay_start essay_end essay_end (Normal tt))).
    + reflexivity.
    + by_outcome.
    + reflexivity.
Defined.

Lemma content_update_keeps_prefix_witness :
  let n := length essay_front in
  let written :=
    take n essay_body
    ++ GetSubstitution (drop n essay_body) (take n essay_body) []
         (detailsTemplate essay) in
  take n written = take n essay_body
  /\ startsWith (lit detailsHeading) (drop n essay_body) = true
  /\ (forall k, k < n -> startsWith (lit detailsHeading) (drop k essay_body) = false)
  /\ reconcileNote DEFAULT_SETTINGS essay essay_start
     = match vault_modify essay_file written (vault_with essay_body) with
       | (Ok _, w2) =>
           reconcileDueDate essay_file (formatDueDate essay)
             (incr_updated (set_host w2 essay_start))
       | (Threw _, w2) => (Continues, set_host w2 essay_start)
       end.
Proof.
  apply (content_update_keeps_prefix DEFAULT_SETTINGS essay essay_start essay_file
           essay_body (vault_with essay_body) (length essay_front));
    vm_compute; reflexivity.
Defined.

Example essay_note_rewritten :
  updatedContent essay_body essay
  = essay_front ++ lit detailsHeading ++ nl ++ lit "Points: 20" ++ nl ++ nl
    ++ lit "### Description" ++ nl ++ lit "Five pages." ++ nl ++ nl
    ++ lit "[View on Canvas](https://lms.test/a/10)" ++ nl.
Proof. vm_compute. reflexivity. Qed.

Lemma content_update_without_heading_witness :
  updatedContent plain_body essay = plain_body
  /\ updatedCount (snd (reconcileNote DEFAULT_SETTINGS essay plain_start)) = 1.
Proof.
  destruct (content_update_without_heading DEFAULT_SETTINGS essay plain_start
              essay_file plain_body (vault_with plain_body))
    as (Hsame & Hnote & _); try (vm_compute; reflexivity).
  split; [exact Hsame|]. rewrite Hnote. vm_compute. reflexivity.
Defined.

(** ** More runs *)

(** Deleting a token can bring a new one together, and a bracket pair that
    spans a line break is no tag: such patterns are those a pass may leave
    behind. *)
Example cleanAssignmentName_leaves_token :
  cleanAssignmentName (lit "-ABC-ABC123-123-") = lit "-ABC123-"
  /\ cleanAssignmentName (lit "[a" ++ nl ++ lit "b] x") = lit "[a b] x".
Proof. split; vm_compute; reflexivity. Qed.

(** A whole run: four courses, three of the term, one of which fails on its
    second page; the store file is absent, the note of the essay exists. *)
Example createAssignmentNotes_run :
  option_map (fun s => (notices s, counts s, length (requests (remote s))))
    (createAssignmentNotes mock_requestCourses mock_requestAssignments
       DEFAULT_SETTINGS 3 essay_start)
  = Some ([lit "Fetching Canvas assignments for Spring 2025...";
           lit "Created 2 new notes, updated 0, updated 1 due dates, skipped 99 unchanged notes"],
          (2, 0, 1, 99), 5).
Proof. vm_compute. reflexivity. Qed.

(** Without the Templater plugin nothing is fetched. *)
Example createAssignmentNotes_without_templater :
  option_map (fun s => (notices s, requests (remote s)))
    (createAssignmentNotes mock_requestCourses mock_requestAssignments
       DEFAULT_SETTINGS 3
       (start {| mem_templater := false; mem_folders := []; mem_files := [] |} ∅))
  = Some ([lit "Templater plugin not found! Please install and enable it."], []).
Proof. vm_compute. reflexivity. Qed.

(** * Further properties *)

(** ** Pagination, whatever the remote side sends *)

Section FetcherMore.
Context {Net T : Type}.
Variable makeRequest : str -> Net -> response T * Net.

Lemma page_turn_cases (r : response T) (allData : list T) (page : nat) :
  (exists p, r = Items p /\ 100 <= length p
     /\ page_turn r allData page = (allData ++ p, S page, true))
  \/ (ends r = true
      /\ exists page', page_turn r allData page = (allData ++ last_items r, page', false)).
Proof.
  destruct (ends r) eqn:E.
  - right. split; [done|]. by apply page_turn_ends.
  - left. destruct r as [| |p]; [done|done|]. simpl in E.
    apply Nat.ltb_ge in E. exists p. repeat split; [done|].
    unfold page_turn. destruct p as [|x p]; [simpl in E; lia|].
    assert ((length (x :: p) <? 100) = false) as -> by (by apply Nat.ltb_ge).
    done.
Qed.

Lemma getAllPages_loop_returns (fuel : nat) (baseUrl : str) (allData : list T)
  (page : nat) (w : world Net) (data : list T) (w' : world Net) :
  getAllPages_loop makeRequest fuel baseUrl allData page w = Some (data, w') ->
  exists ps last,
    serves makeRequest baseUrl page (net w) ps last (net w')
    /\ Forall (fun p => 100 <= length p) ps /\ ends last = true
    /\ data = allData ++ concat ps ++ last_items last
    /\ requests w' = requests w ++ map (pageUrl baseUrl) (seq page (S (length ps)))
    /\ length ps < fuel.
Proof.
  revert allData page w. induction fuel as [|fuel IH]; intros allData page w; [done|].
  simpl. destruct (makeRequest (pageUrl baseUrl page) (net w)) as [r n1] eqn:Hreq.
  destruct (page_turn_cases r allData page) as [(p & -> & Hp & ->) | (Hend & page' & ->)].
  - intros Hloop. apply IH in Hloop as (ps & last & Hs & Hall & Hend & -> & Hlog & Hlt).
    exists (p :: ps), last. simpl in *. repeat split.
    + by eapply serves_page.
    + by constructor.
    + done.
    + by rewrite <- !app_assoc.
    + by rewrite Hlog, <- app_assoc.
    + lia.
  - intros [= <- <-]. exists [], r. simpl. repeat split; [|done|done|lia].
    by apply serves_last.
Qed.

(** X1: whatever [getAllPages] returns is what the remote side sent: some pages
    of 100 items or more, then an answer that ends the loop (a shorter page,
    something that is no array, or a failure), asked for as the pages 1, 2, ...
    in this order; the number of requests never exceeds the fuel. *)
Theorem getAllPages_returns (fuel : nat) (baseUrl : str) (w : world Net)
  (data : list T) (w' : world Net) :
  getAllPages makeRequest fuel baseUrl w = Some (data, w') ->
  exists ps last,
    serves makeRequest baseUrl 1 (net w) ps last (net w')
    /\ Forall (fun p => 100 <= length p) ps /\ ends last = true
    /\ data = concat ps ++ last_items last
    /\ requests w' = requests w ++ map (pageUrl baseUrl) (seq 1 (S (length ps)))
    /\ length ps < fuel.
Proof. apply getAllPages_loop_returns. Qed.

(** X2: a first answer that ends the loop: one request, and the items of that
    answer if it has any. *)
Theorem getAllPages_first_page_ends (fuel : nat) (baseUrl : str) (w : world Net)
  (r : response T) (n' : Net) :
  0 < fuel ->
  makeRequest (pageUrl baseUrl 1) (net w) = (r, n') ->
  ends r = true ->
  getAllPages makeRequest fuel baseUrl w
  = Some (last_items r, {| net := n'; requests := requests w ++ [pageUrl baseUrl 1] |}).
Proof.
  intros Hfuel Hreq Hend. unfold getAllPages.
  rewrite (getAllPages_loop_serves makeRequest baseUrl 1 (net w) [] r n');
    [done|by apply serves_last|done|done|done|done].
Qed.
End FetcherMore.

Lemma getAllPages_returns_witness :
  exists ps last,
    serves queue_source (lit "https://lms.test/api/v1/courses") 1
      [repeat 7 120; [1; 2; 3]] ps last []
    /\ Forall (fun p => 100 <= length p) ps /\ ends last = true
    /\ repeat 7 120 ++ [1; 2; 3] = concat ps ++ last_items last
    /\ [lit "https://lms.test/api/v1/courses?page=1&per_page=100";
        lit "https://lms.test/api/v1/courses?page=2&per_page=100"]
       = [] ++ map (pageUrl (lit "https://lms.test/api/v1/courses"))
                 (seq 1 (S (length ps)))
    /\ length ps < 4.
Proof.
  apply (getAllPages_returns queue_source 4 (lit "https://lms.test/api/v1/courses")
           {| net := [repeat 7 120; [1; 2; 3]]; requests := [] |}
           (repeat 7 120 ++ [1; 2; 3])
           {| net := [];
              requests :=
                [lit "https://lms.test/api/v1/courses?page=1&per_page=100";
                 lit "https://lms.test/api/v1/courses?page=2&per_page=100"] |}).
  vm_compute. reflexivity.
Defined.

Lemma getAllPages_first_page_ends_witness :
  getAllPages failing_source 2 (lit "https://lms.test/api/v1/courses")
    {| net := 0; requests := [] |}
  = Some ([], {| net := 1;
                 requests := [] ++ [pageUrl (lit "https://lms.test/api/v1/courses") 1] |}).
Proof.
  apply (getAllPages_first_page_ends failing_source 2 _
           {| net := 0; requests := [] |} Throw 1).
  - lia.
  - reflexivity.
  - reflexivity.
Defined.

(** ** The URL of a page *)

Lemma lit_inj (a b : string) : lit a = lit b -> a = b.
Proof.
  intros E. apply (f_equal string_of_list_ascii) in E.
  unfold lit in E. by rewrite !string_of_list_ascii_of_string in E.
Qed.

Lemma showNat_inj (p q : nat) : showNat p = showNat q -> p = q.
Proof.
  intros E. apply lit_inj in E.
  apply (f_equal NilEmpty.uint_of_string) in E. rewrite !NilEmpty.usu in E.
  injection E as E. apply (f_equal Nat.of_uint) in E.
  by rewrite !DecimalNat.Unsigned.of_to in E.
Qed.

(** X3: the pages of one base URL have different URLs: no page is asked for
    under the URL of another one. *)
Theorem pageUrl_inj (baseUrl : str) (p q : nat) :
  p <> q -> pageUrl baseUrl p <> pageUrl baseUrl q.
Proof.
  intros Hpq E. apply Hpq. unfold pageUrl in E. do 3 apply app_inv_head in E.
  apply app_inv_tail in E. by apply showNat_inj.
Qed.

Lemma pageUrl_inj_witness :
  pageUrl (lit "https://lms.test/api/v1/courses?include[]=term") 1
  <> pageUrl (lit "https://lms.test/api/v1/courses?include[]=term") 10.
Proof. apply pageUrl_inj. lia. Defined.

(** ** Assignment fetch: which courses, which annotations *)

Section FetchMore.
Context {Net num : Type}.
Variable requestCourses : str -> Net -> response CanvasCourse * Net.
Variable requestAssignments : str -> Net -> response (CanvasAssignment num) * Net.
Variable settings : CanvasAssignmentProcessorSettings.

Lemma annotate_annotated (c : CanvasCourse) (a : CanvasAssignment num) :
  annotated_by c (annotate c a).
Proof. done. Qed.

Lemma assignments_request_mono (cs cs' : list CanvasCourse) (url : str) :
  (forall c, c ∈ cs -> c ∈ cs') ->
  assignments_request settings cs url -> assignments_request settings cs' url.
Proof. intros Hsub (c & page & Hc & ->). exists c, page. split; [by apply Hsub|done]. Qed.

Lemma fetch_courses_sound (fuel : nat) (cs : list CanvasCourse)
  (acc : list (CanvasAssignment num)) (w : world Net)
  (res : list (CanvasAssignment num)) (w' : world Net) :
  fetch_courses requestAssignments settings fuel cs acc w = Some (res, w') ->
  (forall a, a ∈ res -> a ∈ acc \/ exists c, c ∈ cs /\ annotated_by c a)
  /\ exists new, requests w' = requests w ++ new
       /\ Forall (assignments_request settings cs) new.
Proof.
  revert acc w. induction cs as [|c cs IH]; intros acc w; simpl.
  - intros [= <- <-]. split; [by left|]. exists []. by rewrite app_nil_r.
  - destruct (getAllPages _ _ _ _) as [[assignments w1]|] eqn:Hpages; [|done].
    intros Hrest. apply IH in Hrest as (Hres & new & Hlog & Hnew).
    unfold getAllPages in Hpages.
    apply getAllPages_loop_returns in Hpages
      as (ps & last & _ & _ & _ & _ & Hlog1 & _).
    split.
    + intros a Ha. destruct (Hres a Ha) as [Hacc | (c' & Hc' & Han)].
      * apply elem_of_app in Hacc as [Hacc | Hmap]; [by left|]. right.
        apply list_elem_of_In, in_map_iff in Hmap as (a0 & <- & _).
        exists c. split; [apply list_elem_of_here | apply annotate_annotated].
      * right. exists c'. split; [by apply list_elem_of_further | done].
    + exists (map (pageUrl (assignmentsUrl settings c)) (seq 1 (S (length ps))) ++ new).
      split; [by rewrite Hlog, Hlog1, <- app_assoc|].
      apply Forall_app. split.
      * apply List.Forall_forall. intros url Hurl.
        apply in_map_iff in Hurl as (page & <- & _). exists c, page.
        split; [apply list_elem_of_here | done].
      * eapply Forall_impl; [exact Hnew|]. intros url.
        apply assignments_request_mono. intros c'. apply list_elem_of_further.
Qed.

(** X4: every assignment that [fetchCanvasAssignments] returns carries the code,
    the name and the key of a fetched course that passes the filter, and after
    the list of courses the remote side is asked for the assignments of such
    courses only. *)
Theorem fetchCanvasAssignments_sound (fuel : nat) (w : world Net)
  (res : list (CanvasAssignment num)) (w' : world Net) :
  fetchCanvasAssignments requestCourses requestAssignments settings fuel w
  = Some (res, w') ->
  exists courses w1,
    getAllPages requestCourses fuel (coursesUrl settings) w = Some (courses, w1)
    /\ (forall a, a ∈ res ->
        exists c, c ∈ courses /\ isCurrentSemesterCourse settings c = true
          /\ annotated_by c a)
    /\ exists new, requests w' = requests w1 ++ new
         /\ Forall (assignments_request settings
                      (filter (fun c => isCurrentSemesterCourse settings c = true)
                         courses)) new.
Proof.
  unfold fetchCanvasAssignments.
  destruct (getAllPages requestCourses _ _ _) as [[courses w1]|]; [|done].
  intros Hfetch. exists courses, w1. split; [done|].
  apply fetch_courses_sound in Hfetch as (Hres & Hlog). split; [|done].
  intros a Ha. destruct (Hres a Ha) as [Hnil | (c & Hc & Han)].
  - by apply elem_of_nil in Hnil.
  - apply list_elem_of_filter in Hc as [Hcur Hc]. by exists c.
Qed.
End FetchMore.

Lemma fetchCanvasAssignments_sound_witness :
  exists res w',
    fetchCanvasAssignments mock_requestCourses mock_requestAssignments
      DEFAULT_SETTINGS 3 {| net := 0; requests := [] |} = Some (res, w')
    /\ exists courses w1,
         getAllPages mock_requestCourses 3 (coursesUrl DEFAULT_SETTINGS)
           {| net := 0; requests := [] |} = Some (courses, w1)
         /\ (forall a, a ∈ res ->
             exists c, c ∈ courses /\ isCurrentSemesterCourse DEFAULT_SETTINGS c = true
               /\ annotated_by c a)
         /\ exists new, requests w' = requests w1 ++ new
              /\ Forall (assignments_request DEFAULT_SETTINGS
                           (filter
                              (fun c => isCurrentSemesterCourse DEFAULT_SETTINGS c = true)
                              courses)) new.
Proof.
  destruct (fetchCanvasAssignments mock_requestCourses mock_requestAssignments
              DEFAULT_SETTINGS 3 {| net := 0; requests := [] |})
    as [[res w']|] eqn:E.
  - exists res, w'. split; [done|].
    exact (fetchCanvasAssignments_sound mock_requestCourses mock_requestAssignments
             DEFAULT_SETTINGS 3 _ res w' E).
  - vm_compute in E. discriminate.
Defined.

(** ** The key of a course *)

(** X5: [courseKey] is the leftmost run of three capitals and three digits of the
    course code, or the course code itself when it has no such run. *)
Theorem courseKey_subject (course_code : str) :
  (exists b a,
     course_code = b ++ courseKey course_code ++ a
     /\ is_subject (courseKey course_code)
     /\ forall b1 b2 m a', b = b1 ++ b2 -> b2 <> [] ->
          b2 ++ courseKey course_code ++ a = m ++ a' -> ~ is_subject m)
  \/ (courseKey course_code = course_code
      /\ forall b m a, course_code = b ++ m ++ a -> ~ is_subject m).
Proof.
  assert (decides re_subject is_subject) as Hd
    by exact (decides_classes upper [upper; upper; digit; digit; digit]).
  unfold courseKey. pose proof (search_spec re_subject course_code) as Hs.
  destruct (search re_subject course_code) as [[[b m] a]|].
  - left. destruct Hs as (-> & Hex & Hfirst). exists b, a.
    pose proof (Hd (m ++ a)) as Hm. rewrite Hex in Hm.
    destruct Hm as (m' & Hm' & HP & _). apply app_inv_tail in Hm' as <-.
    repeat split; [done|].
    intros b1 b2 m'' a' Hb Hne Hsplit.
    pose proof (Hd (b2 ++ m ++ a)) as Hb2. rewrite (Hfirst b1 b2 Hb Hne) in Hb2.
    by apply (Hb2 m'' a').
  - right. split; [done|]. intros b m a ->. clear -Hs Hd.
    induction b as [|c b IH].
    + simpl in *. pose proof (Hd (m ++ a)) as Hm.
      assert (exec re_subject (m ++ a) = None) as E by (by destruct (m ++ a), Hs).
      rewrite E in Hm. by apply (Hm m a).
    + apply IH. simpl in Hs. by destruct Hs.
Qed.

Example courseKey_examples :
  courseKey (lit "2025SP-ENG101-01") = lit "ENG101"
  /\ courseKey (lit "ABCD1234") = lit "BCD123"
  /\ courseKey (lit "eng101") = lit "eng101".
Proof. repeat split; vm_compute; reflexivity. Qed.

(** ** The course filter, reduced *)

Lemma includes_app_inv (s a b : str) :
  includes s (a ++ b) = true -> includes s a = true /\ includes s b = true.
Proof.
  intros H. destruct (includes s a) eqn:Ea, (includes s b) eqn:Eb; try done.
  - by rewrite (includes_false_app s a b (or_intror Eb)) in H.
  - by rewrite (includes_false_app s a b (or_introl Ea)) in H.
  - by rewrite (includes_false_app s a b (or_introl Ea)) in H.
Qed.

(** X6: two of the five tests of the filter never decide: a course code that
    contains the year followed by the semester, with or without a [c], contains
    both of them.  The filter is the disjunction of the other three tests. *)
Theorem isCurrentSemesterCourse_three_tests
  (settings : CanvasAssignmentProcessorSettings) (course : CanvasCourse) :
  isCurrentSemesterCourse settings course = matchesTerm settings course.
Proof.
  unfold isCurrentSemesterCourse, matchesTerm. cbv zeta.
  set (code := toLowerCase (c_course_code course)).
  set (sem := toLowerCase (semester settings)).
  destruct (includes code (year settings ++ sem)) eqn:E2.
  - apply includes_app_inv in E2 as [-> ->]. simpl.
    by rewrite !orb_true_r.
  - destruct (includes code (year settings ++ sem ++ lit "c")) eqn:E3.
    + apply includes_app_inv in E3 as [Hy Hsc].
      apply includes_app_inv in Hsc as [Hs _]. rewrite Hy, Hs. simpl.
      by rewrite !orb_true_r.
    + by rewrite !orb_false_r.
Qed.

(** ** The cleaned name *)

Lemma strips_length (P : str -> Prop) (s out : str) :
  strips P s out -> length out <= length s.
Proof.
  induction 1 as [|m rest out HP Hne Hs IH|c t out Hno Hs IH]; simpl.
  - done.
  - rewrite length_app. lia.
  - lia.
Qed.

Lemma strips_first_length (P : str -> Prop) (s out : str) :
  strips_first P s out -> length out <= length s.
Proof. destruct 1; [done|]. rewrite !length_app. lia. Qed.

Lemma collapse_runs_length (b : bool) (s : str) :
  length (collapse_runs b s) <= length s.
Proof.
  revert b. induction s as [|c t IH]; intros b; [done|]. simpl.
  destruct (space c); [destruct b|]; simpl;
    [pose proof (IH true) | pose proof (IH true) | pose proof (IH false)]; lia.
Qed.

Lemma trim_length (s : str) : length (trim s) <= length s.
Proof.
  unfold trim. destruct (trimStart_suffix s) as [l1 H1].
  destruct (trimEnd_prefix (trimStart s)) as [l2 H2].
  apply (f_equal (@length ascii)) in H1, H2. rewrite length_app in H1, H2. lia.
Qed.

Lemma cleaned_legal_spaced_trimmed (name : str) :
  Forall (fun c => legal c = true) (cleanAssignmentName name)
  /\ single_spaced false (cleanAssignmentName name)
  /\ trim (cleanAssignmentName name) = cleanAssignmentName name.
Proof.
  destruct (cleanAssignmentName_stages name) as (s1 & s2 & s3 & _ & _ & _ & ->).
  repeat split.
  - apply Forall_trim, Forall_legal_collapse, List.Forall_forall.
    intros c Hc. by apply filter_In in Hc as [_ Hc].
  - apply single_spaced_trim, single_spaced_collapse.
  - apply trim_idem.
Qed.

(** X7: the cleaned name is safe as a file name and tidy: it holds none of the
    illegal characters, its white space is single spaces only, none in front
    and none at the end; and it is never longer than the title. *)
Theorem cleanAssignmentName_tidy (name : str) :
  Forall (fun c => illegal c = false) (cleanAssignmentName name)
  /\ single_spaced false (cleanAssignmentName name)
  /\ trim (cleanAssignmentName name) = cleanAssignmentName name
  /\ length (cleanAssignmentName name) <= length name.
Proof.
  destruct (cleaned_legal_spaced_trimmed name) as (Hl & Hs & Ht).
  repeat split; [|done|done|].
  - eapply Forall_impl; [exact Hl|]. intros c Hc. unfold legal in Hc.
    by destruct (illegal c).
  - destruct (cleanAssignmentName_stages name) as (s1 & s2 & s3 & H1 & H2 & H3 & ->).
    apply strips_length in H1, H2. apply strips_first_length in H3.
    pose proof (trim_length (collapse_runs false (List.filter legal s3))).
    pose proof (collapse_runs_length false (List.filter legal s3)).
    pose proof (List.filter_length_le legal s3). lia.
Qed.

(** ** Change detection *)

Lemma getAssignmentHash_same {num : Type} `{JSNumber num} (a b : CanvasAssignment num) :
  getAssignmentHash a = getAssignmentHash b ->
  a_name a = a_name b /\ a_description a = a_description b
  /\ a_points_possible a = a_points_possible b /\ a_html_url a = a_html_url b.
Proof.
  unfold getAssignmentHash. intros E.
  apply app_inv_head in E. apply app_inv_head in E.
  apply QuoteJSONString_inj in E as [Hname E].
  apply app_inv_head in E. apply app_inv_head in E.
  apply QuoteJSONString_inj in E as [Hdesc E].
  apply app_inv_head in E. apply app_inv_head in E.
  apply numeric_comma_inj in E as [Hpts E];
    [|apply numberToString_numeric|apply numberToString_numeric].
  apply numberToString_inj in Hpts.
  apply (app_inv_head (jsonKey "html_url")) in E.
  by apply QuoteJSONString_inj in E as [Hurl _].
Qed.

(** X8: once a turn of the loop for an assignment is complete, a later fetch is
    classified as changed exactly when it differs from that assignment in
    the name, the description, the points or the link; the due date and the
    other fields do not count. *)
Theorem contentChanged_exact {W Net num : Type} `{Obsidian W} `{JSNumber num}
  (settings : CanvasAssignmentProcessorSettings) (a b : CanvasAssignment num)
  (s s' : run W Net) :
  reconcile settings a s = (Normal tt, s') ->
  contentChanged (processedAssignments s' !! assignmentKeyOf a)
    (getAssignmentHash b) = true
  <-> ~ (a_name a = a_name b /\ a_description a = a_description b
         /\ a_points_possible a = a_points_possible b
         /\ a_html_url a = a_html_url b).
Proof.
  intros Hr. apply reconcile_store in Hr.
  rewrite Hr, lookup_insert_eq. unfold contentChanged, str_eqb.
  assert (truthy (getAssignmentHash a) = true) as -> by done. simpl.
  rewrite negb_true_iff, bool_decide_eq_false. split.
  - intros Hne (Hn & Hd & Hp & Hu). apply Hne. unfold getAssignmentHash.
    by rewrite Hn, Hd, Hp, Hu.
  - intros Hdiff Heq. by apply Hdiff, getAssignmentHash_same.
Qed.

Lemma contentChanged_exact_witness :
  contentChanged (processedAssignments essay_end !! assignmentKeyOf essay)
    (getAssignmentHash (mock_assignment 10 "Essay")) = true
  <-> ~ (a_name essay = a_name (mock_assignment 10 "Essay")
         /\ a_description essay = a_description (mock_assignment 10 "Essay")
         /\ a_points_possible essay = a_points_possible (mock_assignment 10 "Essay")
         /\ a_html_url essay = a_html_url (mock_assignment 10 "Essay")).
Proof.
  apply (contentChanged_exact DEFAULT_SETTINGS essay
           (mock_assignment 10 "Essay") essay_start essay_end).
  by_outcome.
Defined.

(** ** The store file and the end of a run *)

Section PluginMore.
Context {W Net num : Type} `{Obsidian W} `{JSNumber num}.
Variable settings : CanvasAssignmentProcessorSettings.
Implicit Types s : run W Net.


(** X9: [loadProcessedAssignments] never throws.  It returns the parsed store
    when the file exists, can be read and parses, and the empty store in
    every other case: no file, a failing call, a text that does not parse.
    Of the run it changes the host only, by its calls. *)
Theorem loadProcessedAssignments_total s :
  loadProcessedAssignments s
  = match adapter_exists PROCESSED_ASSIGNMENTS_PATH (host s) with
    | (Ok true, w1) =>
        match adapter_read PROCESSED_ASSIGNMENTS_PATH w1 with
        | (Ok content, w2) =>
            (Normal match JSON_parse content with
                    | Ok store => store
                    | Threw _ => ∅
                    end,
             set_host w2 s)
        | (Threw _, w2) => (Normal ∅, set_host w2 s)
        end
    | (_, w1) => (Normal ∅, set_host w1 s)
    end.
Proof.
  unfold loadProcessedAssignments, try_catch, bind, call, ret, throw.
  destruct (adapter_exists PROCESSED_ASSIGNMENTS_PATH (host s)) as [[[|]|e] w1];
    simpl; [|done|done].
  destruct (adapter_read PROCESSED_ASSIGNMENTS_PATH w1) as [[content|e] w2];
    [|done].
  by destruct (JSON_parse content).
Qed.

Lemma saveProcessedAssignments_writes (store : gmap str str) s :
  saveProcessedAssignments store s
  = (Normal tt,
     set_host (snd (adapter_write PROCESSED_ASSIGNMENTS_PATH (JSON_stringify store)
                      (host s))) s).
Proof.
  unfold saveProcessedAssignments, try_catch, call.
  by destruct (adapter_write _ _ _) as [[[]|e] w].
Qed.

Lemma for_of_never_continues {A : Type} (l : list A) (body : A -> M (run W Net) unit)
  s s' :
  for_of l body s <> (Continues, s').
Proof.
  revert s. induction l as [|x l IH]; intros s; simpl; [done|].
  destruct (body x s) as [[[]|e|] s1]; [apply IH | done | apply IH].
Qed.

Lemma reconcileAll_eval (l : list (CanvasAssignment num)) s :
  reconcileAll settings l s
  = match for_of l (reconcile settings) (set_counts 0 0 0 0 s) with
    | (Normal _, s1) =>
        (Normal tt,
         show_notice (summary s1)
           (set_host
              (snd (adapter_write PROCESSED_ASSIGNMENTS_PATH
                      (JSON_stringify (processedAssignments s1)) (host s1)))
              s1))
    | (Throws e, s1) => (Throws e, s1)
    | (Continues, s1) => (Continues, s1)
    end.
Proof.
  unfold reconcileAll, bind, modify, get.
  destruct (for_of l (reconcile settings) (set_counts 0 0 0 0 s)) as [[[]|e|] s1];
    [|done|done].
  by rewrite saveProcessedAssignments_writes.
Qed.

(** X10: the end of a run: when the loop over the assignments throws, nothing is
    written and no summary is shown; otherwise the store is written once, as
    it stands after the loop, and the summary is shown whether or not the
    write succeeded. *)
Theorem reconcileAll_outcome (l : list (CanvasAssignment num)) s :
  match for_of l (reconcile settings) (set_counts 0 0 0 0 s) with
  | (Throws e, s1) => reconcileAll settings l s = (Throws e, s1)
  | (_, s1) =>
      reconcileAll settings l s
      = (Normal tt,
         show_notice (summary s1)
           (set_host
              (snd (adapter_write PROCESSED_ASSIGNMENTS_PATH
                      (JSON_stringify (processedAssignments s1)) (host s1))) s1))
  end.
Proof.
  rewrite reconcileAll_eval.
  destruct (for_of l (reconcile settings) (set_counts 0 0 0 0 s)) as [[[]|e|] s1] eqn:Hl.
  - done.
  - done.
  - by destruct (for_of_never_continues _ _ _ _ Hl).
Qed.

(** X11: a turn of the loop that does not complete leaves the store, the notices,
    the remote side and three of the counters as they were; the updated
    counter too when the turn ends by [continue]. *)
Theorem reconcile_failed_turn (a : CanvasAssignment num) s (r : control unit) s' :
  reconcile settings a s = (r, s') ->
  r <> Normal tt ->
  processedAssignments s' = processedAssignments s
  /\ notices s' = notices s /\ remote s' = remote s
  /\ createdCount s' = createdCount s
  /\ dueDateUpdatedCount s' = dueDateUpdatedCount s
  /\ skippedCount s' = skippedCount s
  /\ updatedCount s <= updatedCount s' <= S (updatedCount s)
  /\ (r = Continues -> updatedCount s' = updatedCount s).
Proof.
  intros Hr Hne. apply reconcile_effect in Hr. destruct r as [[]|e|]; [done| |].
  - destruct Hr as (du & Hle & Hr & Hn & Hs & Hc & Hu & Hd & Hk).
    repeat split; try done; lia.
  - destruct Hr as (Hr & Hn & Hs & Hc & Hu & Hd & Hk).
    repeat split; try done; lia.
Qed.




(** X12: the note of an assignment is the first Markdown file of the vault whose
    path starts with the directory and whose cleaned base name is the cleaned
    name; there is none when no file is such, or when the list of files cannot
    be had. *)
Theorem findExistingAssignmentFile_first (directoryPath cleanedName : str) (w : W) :
  match findExistingAssignmentFile directoryPath cleanedName w with
  | Some file =>
      exists before after,
        getMarkdownFiles w = Ok (before ++ file :: after)
        /\ candidate directoryPath cleanedName file
        /\ Forall (fun f => ~ candidate directoryPath cleanedName f) before
  | None =>
      forall files, getMarkdownFiles w = Ok files ->
        Forall (fun f => ~ candidate directoryPath cleanedName f) files
  end.
Proof.
  unfold findExistingAssignmentFile.
  destruct (getMarkdownFiles w) as [files|e]; [|done].
  induction files as [|f files IH]; simpl.
  - intros files [= <-]. constructor.
  - destruct (startsWith directoryPath (path f)) eqn:Hp; simpl.
    + unfold str_eqb at 1. destruct (bool_decide _) eqn:Hq.
      * apply bool_decide_eq_true in Hq. exists [], files. repeat split; try done.
      * apply bool_decide_eq_false in Hq.
        destruct (List.find _ _) as [file|].
        -- destruct IH as (before & after & [= ->] & Hc & Hb).
           exists (f :: before), after. repeat split; try done; try apply Hc.
           constructor; [|done]. by intros [_ Hn].
        -- intros files' [= <-]. constructor; [by intros [_ Hn]|]. by apply IH.
    + destruct (List.find _ _) as [file|].
      * destruct IH as (before & after & [= ->] & Hc & Hb).
        exists (f :: before), after. repeat split; try done; try apply Hc.
        constructor; [|done]. intros [Hn _]. congruence.
      * intros files' [= <-]. constructor; [intros [Hn _]; congruence|]. by apply IH.
Qed.

(** X13: a note that exists, with the content unchanged and the due date in it
    equal to the one fetched: the note is read once, nothing is written, and
    the skipped counter grows by one. *)
Theorem reconcileNote_unchanged (a : CanvasAssignment num) s (f : TFile)
  (content : str) (w1 : W) :
  findExistingAssignmentFile (directoryPathOf settings a)
    (cleanAssignmentName (a_name a)) (host s) = Some f ->
  contentChanged (processedAssignments s !! assignmentKeyOf a)
    (getAssignmentHash a) = false ->
  vault_read f (host s) = (Ok content, w1) ->
  currentDueDate content = formatDueDate a ->
  reconcileNote settings a s = (Normal tt, incr_skipped (set_host w1 s)).
Proof.
  intros Hfound Hsame Hread Hdue.
  unfold reconcileNote, bind at 1, get. cbv zeta. rewrite Hfound, Hsame.
  unfold bind at 1, ret. unfold reconcileDueDate, bind at 1, call at 1.
  rewrite Hread. fold (currentDueDate content). rewrite Hdue.
  unfold str_eqb. by rewrite bool_decide_eq_true_2.
Qed.

(** X14: a note that exists and cannot be read: when its content is classified
    as changed the failure is caught and the turn is skipped, otherwise the
    failure is not caught and leaves the loop. *)
Theorem reconcileNote_unreadable (a : CanvasAssignment num) s (f : TFile)
  (e : str) (w1 : W) :
  findExistingAssignmentFile (directoryPathOf settings a)
    (cleanAssignmentName (a_name a)) (host s) = Some f ->
  vault_read f (host s) = (Threw e, w1) ->
  reconcileNote settings a s
  = (if contentChanged (processedAssignments s !! assignmentKeyOf a)
          (getAssignmentHash a)
     then Continues else Throws e,
     set_host w1 s).
Proof.
  intros Hfound Hread.
  unfold reconcileNote, bind at 1, get. cbv zeta. rewrite Hfound.
  destruct (contentChanged _ _).
  - unfold bind at 1, try_catch, updateNote, bind at 1, call at 1. by rewrite Hread.
  - unfold bind at 1, ret. unfold reconcileDueDate, bind at 1, call at 1.
    by rewrite Hread.
Qed.

(** X15: no note and no template: the turn is skipped and nothing changes. *)
Theorem reconcileNote_without_template (a : CanvasAssignment num) s :
  findExistingAssignmentFile (directoryPathOf settings a)
    (cleanAssignmentName (a_name a)) (host s) = None ->
  getAbstractFileByPath (templatePath settings) (host s) = None ->
  reconcileNote settings a s = (Continues, s).
Proof.
  intros Hfound Htemplate.
  unfold reconcileNote, bind at 1, get. cbv zeta. rewrite Hfound.
  unfold try_catch, createNote, bind at 1, get. by rewrite Htemplate.
Qed.
End PluginMore.

Lemma reconcile_failed_turn_witness :
  let s' := snd (reconcile DEFAULT_SETTINGS lab bare_start) in
  processedAssignments s' = processedAssignments bare_start
  /\ notices s' = notices bare_start /\ remote s' = remote bare_start
  /\ createdCount s' = createdCount bare_start
  /\ dueDateUpdatedCount s' = dueDateUpdatedCount bare_start
  /\ skippedCount s' = skippedCount bare_start
  /\ updatedCount bare_start <= updatedCount s' <= S (updatedCount bare_start)
  /\ (@Continues unit = Continues -> updatedCount s' = updatedCount bare_start).
Proof.
  apply (reconcile_failed_turn DEFAULT_SETTINGS lab bare_start (@Continues unit)).
  - apply (pair_of_fst (reconcile DEFAULT_SETTINGS lab bare_start) Continues).
    vm_compute. reflexivity.
  - done.
Defined.

Lemma reconcileNote_unchanged_witness :
  reconcileNote DEFAULT_SETTINGS essay fresh_start
  = (Normal tt, incr_skipped (set_host (vault_with essay_body) fresh_start)).
Proof.
  apply (reconcileNote_unchanged DEFAULT_SETTINGS essay fresh_start essay_file
           essay_body (vault_with essay_body)); vm_compute; reflexivity.
Defined.

Lemma reconcileNote_unreadable_witness :
  reconcileNote DEFAULT_SETTINGS essay (locked_start fresh_store)
  = (if contentChanged
          (processedAssignments (locked_start fresh_store) !! assignmentKeyOf essay)
          (getAssignmentHash essay)
     then Continues else Throws (lit "EACCES"),
     set_host {| unlocked := vault_with essay_body |} (locked_start fresh_store)).
Proof.
  apply (reconcileNote_unreadable DEFAULT_SETTINGS essay (locked_start fresh_store)
           essay_file); vm_compute; reflexivity.
Defined.

Example unreadable_note_ends_the_run :
  fst (reconcileAll DEFAULT_SETTINGS [essay; lab] (locked_start fresh_store))
  = Throws (lit "EACCES")
  /\ fst (reconcileAll DEFAULT_SETTINGS [essay; lab] (locked_start old_store))
     = Normal tt.
Proof. split; vm_compute; reflexivity. Qed.

Lemma reconcileNote_without_template_witness :
  reconcileNote DEFAULT_SETTINGS lab bare_start = (Continues, bare_start).
Proof.
  apply (reconcileNote_without_template DEFAULT_SETTINGS lab bare_start);
    vm_compute; reflexivity.
Defined.

(** ** The notices of a run *)

Section RunMore.
Context {W Net num : Type} `{Obsidian W} `{JSNumber num}.
Variable requestCourses : str -> Net -> response CanvasCourse * Net.
Variable requestAssignments : str -> Net -> response (CanvasAssignment num) * Net.
Variable settings : CanvasAssignmentProcessorSettings.
Implicit Types s : run W Net.

End RunMore.


(** ** Rewriting a line *)

Lemma GetSubstitution_plain (matched before after template : str) :
  dollar_free template -> GetSubstitution matched before after template = template.
Proof.
  unfold dollar_free. induction template as [|c t IH]; [done|]. simpl.
  intros Hc. apply andb_true_iff in Hc as [Hc Ht]. apply negb_true_iff in Hc.
  rewrite Hc. by rewrite IH.
Qed.

Lemma dollar_free_app (a b : str) : dollar_free a -> dollar_free b -> dollar_free (a ++ b).
Proof. unfold dollar_free. intros Ha Hb. by rewrite forallb_app, Ha, Hb. Qed.

Lemma greedy_dot_line (k : str -> option str) (t : str) :
  k [] = Some [] ->
  (forall c t', lineTerminator c = true -> k (c :: t') = Some (c :: t')) ->
  greedy_star dot k t = Some (skip_line t).
Proof.
  intros Hnil Hcons. induction t as [|c t IH]; [done|]. simpl.
  destruct (dot c) eqn:Hd; [by rewrite IH|].
  apply Hcons. unfold dot in Hd. by apply negb_false_iff in Hd.
Qed.

Lemma exec_line (key s : str) :
  exec (map (fun a => One (chr a)) key ++ [GreedyStar dot; EndLine]) s
  = if startsWith key s then Some (skip_line (drop (length key) s)) else None.
Proof.
  rewrite exec_text. destruct (startsWith key s); [|done].
  apply greedy_dot_line; [done|]. intros c t' Hc. simpl. by rewrite Hc.
Qed.

Lemma search_line (key s : str) :
  match search (map (fun a => One (chr a)) key ++ [GreedyStar dot; EndLine]) s,
        indexOf s key with
  | Some (b, _, a), Some n => b = take n s /\ a = skip_line (drop (n + length key) s)
  | None, None => True
  | _, _ => False
  end.
Proof.
  induction s as [|c t IH]; cbn [search indexOf]; rewrite exec_line.
  - by destruct (startsWith key []).
  - destruct (startsWith key (c :: t)); [done|].
    destruct (search _ t) as [[[b m] a]|], (indexOf t key) as [n|]; try done.
    destruct IH as [-> ->]. done.
Qed.

Lemma replace_line (key value s : str) :
  dollar_free (key ++ value) ->
  replace (map (fun a => One (chr a)) key ++ [GreedyStar dot; EndLine])
    (key ++ value) s
  = rewrite_line key value s.
Proof.
  intros Hplain. unfold replace, rewrite_line. pose proof (search_line key s) as Hs.
  destruct (search _ s) as [[[b m] a]|], (indexOf s key) as [n|]; try done.
  destruct Hs as [-> ->]. rewrite (GetSubstitution_plain _ _ _ _ Hplain).
  by rewrite <- app_assoc.
Qed.

Example essay_due_date_rewritten :
  rewrite_line (lit "Due Date: ") (lit "on 2025-04-02")
    (rewrite_line (lit "duedate: ") (lit "2025-04-02") essay_body)
  = lit "---" ++ nl ++ lit "duedate: 2025-04-02" ++ nl ++ lit "---" ++ nl
    ++ lit "Due Date: on 2025-04-02" ++ nl ++ lit "My notes." ++ nl ++ nl
    ++ lit detailsHeading ++ nl ++ lit "Points: 10" ++ nl.
Proof. vm_compute. reflexivity. Qed.

(** ** Where a text occurs first *)

Lemma indexOf_le (s p : str) (n : nat) : indexOf s p = Some n -> n <= length s.
Proof.
  revert n. induction s as [|c t IH]; intros n; cbn [indexOf].
  - destruct (startsWith p []); [|done]. intros [= <-]. done.
  - destruct (startsWith p (c :: t)); [intros [= <-]; simpl; lia|].
    destruct (indexOf t p) as [m|]; [|done]. intros [= <-].
    specialize (IH m eq_refl). simpl. lia.
Qed.

Lemma indexOf_intro (s p : str) (n : nat) :
  n <= length s ->
  startsWith p (drop n s) = true ->
  (forall k, k < n -> startsWith p (drop k s) = false) ->
  indexOf s p = Some n.
Proof.
  revert n. induction s as [|c t IH]; intros n Hn Hat Hbefore; cbn [indexOf].
  - assert (n = 0) as -> by (simpl in Hn; lia). simpl in Hat. by rewrite Hat.
  - destruct n as [|n].
    + simpl in Hat. by rewrite Hat.
    + pose proof (Hbefore 0 ltac:(lia)) as H0. simpl in H0. rewrite H0.
      rewrite (IH n); [done|simpl in Hn; lia|done|].
      intros k Hk. apply (Hbefore (S k)). lia.
Qed.

Lemma startsWith_app_long (p u x : str) :
  length p <= length u -> startsWith p (u ++ x) = startsWith p u.
Proof.
  revert u. induction p as [|a p IH]; intros u Hlen; [done|].
  destruct u as [|c u]; [simpl in Hlen; lia|]. simpl. rewrite IH; [done|].
  simpl in Hlen. lia.
Qed.

Lemma startsWith_app_self (p x : str) : startsWith p (p ++ x) = true.
Proof. apply startsWith_spec. by exists x. Qed.

(** What follows the first occurrence of [p] does not move it. *)
Lemma indexOf_tail (pre p x y : str) :
  indexOf (pre ++ p ++ x) p = Some (length pre) ->
  indexOf (pre ++ p ++ y) p = Some (length pre).
Proof.
  intros Hx. apply indexOf_first in Hx as [_ Hbefore].
  apply indexOf_intro.
  - rewrite length_app. lia.
  - rewrite drop_app_length. apply startsWith_app_self.
  - intros k Hk. specialize (Hbefore k Hk).
    rewrite !app_assoc in *.
    rewrite drop_app_le in * by (rewrite length_app; lia).
    rewrite startsWith_app_long in *
      by (rewrite length_drop, length_app; lia).
    done.
Qed.

Lemma indexOf_split (s p : str) (n : nat) :
  indexOf s p = Some n ->
  exists x, s = take n s ++ p ++ x /\ length (take n s) = n
    /\ drop (n + length p) s = x.
Proof.
  intros Hn. pose proof (indexOf_le _ _ _ Hn) as Hle.
  apply indexOf_first in Hn as [Hat _]. apply startsWith_spec in Hat as [x Hx].
  exists x. split; [by rewrite <- Hx, take_drop|].
  split; [rewrite length_take; lia|].
  by rewrite <- drop_drop, Hx, drop_app_length.
Qed.

Lemma rewrite_line_at (key value s : str) (n : nat) :
  indexOf s key = Some n ->
  rewrite_line key value s
  = take n s ++ key ++ value ++ skip_line (drop (n + length key) s)
  /\ indexOf (rewrite_line key value s) key = Some n.
Proof.
  intros Hn. unfold rewrite_line. rewrite Hn. split; [done|].
  destruct (indexOf_split _ _ _ Hn) as (x & Hs & Hlen & _).
  rewrite <- Hlen at 3. apply (indexOf_tail _ _ x). rewrite <- Hs. by rewrite Hlen.
Qed.

(** ** The due date read back *)

Lemma dot_not_LF (c : ascii) : dot c = true -> (code c =? 10)%N = false.
Proof.
  unfold dot, lineTerminator. intros Hc. apply negb_true_iff in Hc.
  by apply orb_false_iff in Hc as [-> _].
Qed.

Lemma lazy_line (d rest : str) :
  forallb dot d = true ->
  rest = [] \/ (exists q, rest = nl ++ q) ->
  lazy_until_LF_or_end (d ++ rest) = Some d.
Proof.
  intros Hd Hrest. induction d as [|c d IH]; simpl.
  - destruct Hrest as [-> | [q ->]]; done.
  - simpl in Hd. apply andb_true_iff in Hd as [Hc Hd].
    by rewrite (dot_not_LF _ Hc), Hc, IH.
Qed.

Lemma match_duedate_at (s group : str) (n : nat) :
  indexOf s (lit "duedate: ") = Some n ->
  lazy_until_LF_or_end (drop (n + 9) s) = Some group ->
  match_duedate s = Some group.
Proof.
  revert n. induction s as [|c t IH]; intros n; cbn [indexOf match_duedate].
  - intros Hx. vm_compute in Hx. discriminate.
  - destruct (startsWith _ (c :: t)).
    + intros [= <-]. change (drop (0 + 9) (c :: t)) with (drop 9 (c :: t)).
      by intros ->.
    + destruct (indexOf t _) as [m|]; [|done]. intros [= <-].
      change (drop (S m + 9) (c :: t)) with (drop (m + 9) t). by apply IH.
Qed.

(** A metadata line [duedate: d] that ends in a line feed or ends the text. *)
Lemma currentDueDate_line (pre d rest : str) :
  indexOf (pre ++ lit "duedate: " ++ d ++ rest) (lit "duedate: ")
    = Some (length pre) ->
  forallb dot d = true ->
  rest = [] \/ (exists q, rest = nl ++ q) ->
  currentDueDate (pre ++ lit "duedate: " ++ d ++ rest) = trim d.
Proof.
  intros Hn Hd Hrest. unfold currentDueDate.
  rewrite (match_duedate_at _ d _ Hn); [done|].
  replace (length pre + 9) with (length (pre ++ lit "duedate: "))
    by (rewrite length_app; done).
  rewrite (app_assoc pre), drop_app_length. by apply lazy_line.
Qed.

Lemma startsWith_before (p u x : str) (c : ascii) :
  forallb (fun a => negb (chr c a)) p = true ->
  startsWith p (u ++ c :: x) = true -> startsWith p u = true.
Proof.
  revert u. induction p as [|a p IH]; intros u Hp; [done|].
  simpl in Hp. apply andb_true_iff in Hp as [Ha Hp].
  destruct u as [|b u]; simpl.
  - intros Hs. apply andb_true_iff in Hs as [Hs _].
    apply Ascii.eqb_eq in Hs as ->. unfold chr in Ha.
    by rewrite Ascii.eqb_refl in Ha.
  - intros Hs. apply andb_true_iff in Hs as [-> Hs]. simpl. by apply IH.
Qed.

(** The date written on the metadata line is the date read from the text, when
    the other line rewritten comes after it. *)
Lemma currentDueDate_rewritten (content d long : str) (n : nat) :
  indexOf content (lit "duedate: ") = Some n ->
  forallb dot d = true ->
  trim d = d ->
  skip_line (drop (n + 9) content) = []
  \/ (exists q, skip_line (drop (n + 9) content) = nl ++ q) ->
  (forall m, indexOf (rewrite_line (lit "duedate: ") d content) (lit "Due Date: ")
             = Some m -> n + 9 + length d <= m) ->
  currentDueDate
    (rewrite_line (lit "Due Date: ") long
       (rewrite_line (lit "duedate: ") d content)) = d.
Proof.
  intros Hn Hd Htrim Hrest Hafter.
  destruct (rewrite_line_at (lit "duedate: ") d content n Hn) as [Hform Hidx].
  destruct (indexOf_split _ _ _ Hn) as (x & _ & Hlen & _).
  change (length (lit "duedate: ")) with 9 in Hform.
  set (pre := take n content) in *. set (rest := skip_line _) in *.
  set (C := rewrite_line (lit "duedate: ") d content) in *.
  rewrite <- Hlen in Hidx.
  destruct (indexOf C (lit "Due Date: ")) as [m|] eqn:Hm.
  - specialize (Hafter m eq_refl).
    destruct (rewrite_line_at (lit "Due Date: ") long C m Hm) as [-> _].
    pose proof (indexOf_first _ _ _ Hm) as [Hat _].
    assert (exists q, take m C = pre ++ lit "duedate: " ++ d ++ nl ++ q)
      as [q Hq].
    { destruct Hrest as [Hr | [q Hr]].
      - exfalso. rewrite Hform, Hr, app_nil_r, !app_assoc in Hat.
        rewrite drop_ge in Hat; [done|]. rewrite !length_app, Hlen.
        change (length (lit "duedate: ")) with 9. lia.
      - rewrite Hr in Hform. destruct (decide (m = n + 9 + length d)) as [-> | Hne].
        + exfalso. rewrite Hform, !app_assoc in Hat. rewrite <- (app_assoc _ nl) in Hat.
          rewrite drop_app_le in Hat
            by (rewrite !length_app, Hlen; change (length (lit "duedate: ")) with 9; lia).
          rewrite drop_ge in Hat
            by (rewrite !length_app, Hlen; change (length (lit "duedate: ")) with 9; lia).
          done.
        + exists (take (m - (n + 9 + length d) - 1) q).
          rewrite Hform, !app_assoc. rewrite <- (app_assoc _ nl).
          rewrite take_app_ge
            by (rewrite !length_app, Hlen; change (length (lit "duedate: ")) with 9; lia).
          rewrite !length_app, Hlen. change (length (lit "duedate: ")) with 9.
          rewrite <- !app_assoc. do 3 f_equal.
          replace (m - (n + 9 + length d)) with (S (m - (n + 9 + length d) - 1))
            at 1 by lia.
          done. }
    rewrite Hq. rewrite <- !app_assoc.
    rewrite currentDueDate_line; [done| |done|right; eauto].
    apply (indexOf_tail _ _ (d ++ rest)). by rewrite <- Hform.
  - unfold rewrite_line at 1. fold C. rewrite Hm. rewrite Hform.
    rewrite currentDueDate_line; [done| |done|].
    + by rewrite <- Hform.
    + destruct Hrest as [Hr | [q Hr]]; [by left | right; eauto].
Qed.



(** ** [updateDueDate], and the next comparison *)

Section DueDateMore.
Context {W Net : Type} `{Obsidian W}.
Implicit Types s v : run W Net.

Lemma updateDueDate_eval (f : TFile) (newDueDate : str) s :
  updateDueDate f newDueDate s
  = match vault_read f (host s) with
    | (Ok content, w1) =>
        match longDate newDueDate with
        | Ok formattedDate =>
            match
              vault_modify f (dueDateContent content newDueDate formattedDate) w1
            with
            | (Ok _, w2) => (Normal true, set_host w2 s)
            | (Threw _, w2) => (Normal false, set_host w2 s)
            end
        | Threw _ => (Normal false, set_host w1 s)
        end
    | (Threw _, w1) => (Normal false, set_host w1 s)
    end.
Proof.
  unfold updateDueDate, try_catch, bind at 1, call at 1.
  destruct (vault_read f (host s)) as [[content|e] w1]; [|done].
  unfold longDate, bind at 1. destruct (truthy newDueDate).
  - destruct (imported_moment_format newDueDate _) as [formattedDate|e]; [|done].
    unfold settle, ret, bind, call. cbn [host set_host].
    fold (dueDateContent content newDueDate formattedDate).
    by destruct (vault_modify _ _ _) as [[[]|e] w2].
  - unfold ret, bind, call. cbn [host set_host].
    fold (dueDateContent content newDueDate (lit "No Due Date")).
    by destruct (vault_modify _ _ _) as [[[]|e] w2].
Qed.

Lemma dueDateContent_lines (content newDueDate formattedDate : str) :
  dollar_free newDueDate -> dollar_free formattedDate ->
  dueDateContent content newDueDate formattedDate
  = rewrite_line (lit "Due Date: ") formattedDate
      (rewrite_line (lit "duedate: ") newDueDate content)
  /\ replace re_duedate (lit "duedate: " ++ newDueDate) content
     = rewrite_line (lit "duedate: ") newDueDate content.
Proof.
  intros Hd Hl. unfold dueDateContent, re_duedate, re_DueDate, text.
  rewrite (replace_line (lit "duedate: ") newDueDate) by (by apply dollar_free_app).
  by rewrite (replace_line (lit "Due Date: ") formattedDate)
    by (by apply dollar_free_app).
Qed.

(** X17: [updateDueDate] never throws.  It answers false, and writes nothing,
    when the note cannot be read or when the call of the imported [moment]
    throws; otherwise it writes the note with its first [duedate: ] line and
    its first [Due Date: ] line rewritten, every other line as it was, and
    answers whether the write succeeded.  (The dates are free of dollar
    signs, as formatted dates are.) *)
Theorem updateDueDate_rewrites (f : TFile) (newDueDate : str) s :
  dollar_free newDueDate ->
  (forall formattedDate,
     longDate newDueDate = Ok formattedDate -> dollar_free formattedDate) ->
  updateDueDate f newDueDate s
  = match vault_read f (host s) with
    | (Ok content, w1) =>
        match longDate newDueDate with
        | Ok formattedDate =>
            match
              vault_modify f
                (rewrite_line (lit "Due Date: ") formattedDate
                   (rewrite_line (lit "duedate: ") newDueDate content)) w1
            with
            | (Ok _, w2) => (Normal true, set_host w2 s)
            | (Threw _, w2) => (Normal false, set_host w2 s)
            end
        | Threw _ => (Normal false, set_host w1 s)
        end
    | (Threw _, w1) => (Normal false, set_host w1 s)
    end.
Proof.
  intros Hd Hl. rewrite updateDueDate_eval.
  destruct (vault_read f (host s)) as [[content|e] w1]; [|done].
  destruct (longDate newDueDate) as [formattedDate|e]; [|done].
  by rewrite (proj1 (dueDateContent_lines content _ _ Hd (Hl _ eq_refl))).
Qed.

(** X18: the due date that [updateDueDate] writes is the one the next
    comparison reads.  The note is read, the imported [moment] answers, the
    dates are free of dollar signs, the new date is trimmed and holds no line
    terminator, the metadata line of the note ends with a line feed or ends
    the text, and the [Due Date: ] line comes after it: then [updateDueDate]
    passes to [vault.modify] a text from which the comparison of lines
    400-403 reads the new date, and a turn that reads this text skips. *)
Theorem due_date_round_trip (f : TFile) (d formattedDate content : str) (n : nat)
  s (w1 : W) v (w3 : W) :
  vault_read f (host s) = (Ok content, w1) ->
  longDate d = Ok formattedDate ->
  dollar_free d -> dollar_free formattedDate ->
  forallb dot d = true -> trim d = d ->
  indexOf content (lit "duedate: ") = Some n ->
  skip_line (drop (n + 9) content) = []
  \/ (exists q, skip_line (drop (n + 9) content) = nl ++ q) ->
  (forall m,
     indexOf (replace re_duedate (lit "duedate: " ++ d) content) (lit "Due Date: ")
     = Some m -> n + 9 + length d <= m) ->
  vault_read f (host v) = (Ok (dueDateContent content d formattedDate), w3) ->
  updateDueDate f d s
  = match vault_modify f (dueDateContent content d formattedDate) w1 with
    | (Ok _, w2) => (Normal true, set_host w2 s)
    | (Threw _, w2) => (Normal false, set_host w2 s)
    end
  /\ currentDueDate (dueDateContent content d formattedDate) = d
  /\ reconcileDueDate f d v = (Normal tt, incr_skipped (set_host w3 v)).
Proof.
  intros Hread Hlong Hd Hl Hdot Htrim Hn Hline Hafter Hnext.
  assert (currentDueDate (dueDateContent content d formattedDate) = d) as Hback.
  { destruct (dueDateContent_lines content d formattedDate Hd Hl) as [-> Hfirst].
    rewrite Hfirst in Hafter. by apply (currentDueDate_rewritten _ _ _ n). }
  split; [|split; [done|]].
  - by rewrite updateDueDate_eval, Hread, Hlong.
  - unfold reconcileDueDate, bind, call. rewrite Hnext.
    fold (currentDueDate (dueDateContent content d formattedDate)).
    rewrite Hback. unfold str_eqb. by rewrite bool_decide_eq_true_2.
Qed.

End DueDateMore.

Lemma updateDueDate_rewrites_witness :
  updateDueDate essay_file (lit "2025-04-02") essay_start
  = match vault_read essay_file (host essay_start) with
    | (Ok content, w1) =>
        match longDate (W := memory) (lit "2025-04-02") with
        | Ok formattedDate =>
            match
              vault_modify essay_file
                (rewrite_line (lit "Due Date: ") formattedDate
                   (rewrite_line (lit "duedate: ") (lit "2025-04-02") content)) w1
            with
            | (Ok _, w2) => (Normal true, set_host w2 essay_start)
            | (Threw _, w2) => (Normal false, set_host w2 essay_start)
            end
        | Threw _ => (Normal false, set_host w1 essay_start)
        end
    | (Threw _, w1) => (Normal false, set_host w1 essay_start)
    end.
Proof.
  apply (updateDueDate_rewrites (W := memory) (Net := nat) essay_file
           (lit "2025-04-02") essay_start).
  - reflexivity.
  - intros formattedDate [= <-]. reflexivity.
Defined.

(** Under a build in which the imported [moment] cannot be called, the note
    is read and nothing is written. *)
Example updateDueDate_bundled :
  updateDueDate essay_file (lit "2025-04-02") bundled_start
  = (Normal false, bundled_start).
Proof. rewrite updateDueDate_eval. reflexivity. Qed.

Lemma due_date_round_trip_witness :
  let written :=
    dueDateContent essay_body (lit "2025-04-02") (lit "on 2025-04-02") in
  let w2 := snd (mem_modify essay_file written (vault_with essay_body)) in
  updateDueDate essay_file (lit "2025-04-02") essay_start
  = match vault_modify essay_file written (vault_with essay_body) with
    | (Ok _, w2) => (Normal true, set_host w2 essay_start)
    | (Threw _, w2) => (Normal false, set_host w2 essay_start)
    end
  /\ currentDueDate written = lit "2025-04-02"
  /\ reconcileDueDate essay_file (lit "2025-04-02") (set_host w2 essay_start)
     = (Normal tt, incr_skipped (set_host w2 (set_host w2 essay_start))).
Proof.
  intros written w2.
  apply (due_date_round_trip (W := memory) (Net := nat) essay_file
           (lit "2025-04-02") (lit "on 2025-04-02") essay_body 4
           essay_start (vault_with essay_body) (set_host w2 essay_start) w2).
  - reflexivity.
  - reflexivity.
  - reflexivity.
  - reflexivity.
  - reflexivity.
  - reflexivity.
  - reflexivity.
  - right. eexists. vm_compute. reflexivity.
  - intros m. vm_compute. intros [= <-]. lia.
  - vm_compute. reflexivity.
Defined.

(** ** The details section *)

Section DetailsMore.
Context {num : Type} `{JSNumber num}.

Lemma numeric_dollar_free (s : str) : forallb numeric s = true -> dollar_free s.
Proof.
  unfold dollar_free. induction s as [|c t IH]; [done|]. cbn [forallb].
  intros Hs. apply andb_true_iff in Hs as [Hc Ht]. rewrite (IH Ht), andb_true_r.
  destruct (chr "$" c) eqn:E; [|done]. apply Ascii.eqb_eq in E as <-. done.
Qed.

Lemma detailsTemplate_dollar_free (a : CanvasAssignment num) :
  dollar_free (a_description a) -> dollar_free (a_html_url a) ->
  dollar_free (detailsTemplate a).
Proof.
  intros Hd Hu. unfold detailsTemplate.
  repeat (apply dollar_free_app; [try reflexivity|]); try done.
  apply numeric_dollar_free, numberToString_numeric.
Qed.

Lemma updatedContent_template (body : str) (a : CanvasAssignment num) :
  dollar_free (detailsTemplate a) ->
  updatedContent body a
  = match indexOf body (lit detailsHeading) with
    | Some n => take n body ++ detailsTemplate a
    | None => body
    end.
Proof.
  intros Hplain. unfold updatedContent, replace. rewrite search_details.
  destruct (indexOf body _) as [n|]; [|done].
  by rewrite GetSubstitution_plain, app_nil_r.
Qed.

(** X19: the rewritten note: the text before the heading, then the new section;
    the text as it was when it has no heading.  (The description and the link
    are free of dollar signs.) *)
Theorem updatedContent_plain (body : str) (a : CanvasAssignment num) :
  dollar_free (a_description a) -> dollar_free (a_html_url a) ->
  updatedContent body a
  = match indexOf body (lit detailsHeading) with
    | Some n => take n body ++ detailsTemplate a
    | None => body
    end.
Proof.
  intros Hd Hu. apply updatedContent_template.
  by apply detailsTemplate_dollar_free.
Qed.

Lemma indexOf_detailsTemplate (body : str) (a : CanvasAssignment num) (n : nat) :
  indexOf body (lit detailsHeading) = Some n ->
  indexOf (take n body ++ detailsTemplate a) (lit detailsHeading) = Some n
  /\ take n (take n body ++ detailsTemplate a) = take n body.
Proof.
  intros Hn. destruct (indexOf_split _ _ _ Hn) as (x & Hs & Hlen & _). split.
  - unfold detailsTemplate.
    replace (Some n) with (Some (length (take n body))) by (by rewrite Hlen).
    apply (indexOf_tail _ _ x). by rewrite <- Hs, Hlen.
  - rewrite take_app_le by lia. rewrite take_ge; [done|lia].
Qed.

(** X20: of two content updates of one note only the second one shows. *)
Theorem updatedContent_last_wins (body : str) (a b : CanvasAssignment num) :
  dollar_free (a_description a) -> dollar_free (a_html_url a) ->
  dollar_free (a_description b) -> dollar_free (a_html_url b) ->
  updatedContent (updatedContent body a) b = updatedContent body b.
Proof.
  intros Hda Hua Hdb Hub.
  pose proof (detailsTemplate_dollar_free a Hda Hua) as Ha.
  pose proof (detailsTemplate_dollar_free b Hdb Hub) as Hb.
  rewrite (updatedContent_template body a), (updatedContent_template body b)
    by done.
  destruct (indexOf body _) as [n|] eqn:Hn.
  - destruct (indexOf_detailsTemplate body a n Hn) as [Hi Ht].
    rewrite updatedContent_template by done. by rewrite Hi, Ht.
  - rewrite updatedContent_template by done. by rewrite Hn.
Qed.

Lemma enrichedContent_heading (templateContent : str) (a : CanvasAssignment num) :
  exists rest,
    enrichedContent templateContent a
    = (templateContent ++ nl ++ nl) ++ lit detailsHeading ++ rest.
Proof.
  unfold enrichedContent.
  destruct (truthy (a_description a)), (truthy (a_html_url a));
    eexists; rewrite <- ?app_assoc; repeat f_equal.
Qed.

Lemma indexOf_after_break (t p x : str) :
  includes t p = false ->
  forallb (fun a => negb (chr (ascii_of_N 10) a)) p = true ->
  indexOf ((t ++ nl ++ nl) ++ p ++ x) p = Some (length t + 2).
Proof.
  intros Hfree Hp. apply indexOf_intro.
  - rewrite !length_app. simpl. lia.
  - replace (length t + 2) with (length (t ++ nl ++ nl))
      by (rewrite !length_app; simpl; lia).
    rewrite drop_app_length. apply startsWith_app_self.
  - intros k Hk. destruct (startsWith p (drop k _)) eqn:E; [exfalso|done].
    assert (p <> []) as Hne.
    { intros ->. destruct t; discriminate. }
    destruct (decide (k <= length t)) as [Hle | Hgt].
    + rewrite <- !app_assoc in E. rewrite drop_app_le in E by done.
      apply startsWith_before in E; [|done].
      apply startsWith_spec in E as [r Hr].
      assert (includes t p = true) as Hin; [|congruence].
      apply includes_spec. exists (take k t), r. by rewrite <- Hr, take_drop.
    + assert (k = length t + 1) as -> by lia.
      replace ((t ++ nl ++ nl) ++ p ++ x) with ((t ++ nl) ++ nl ++ p ++ x) in E
        by (by rewrite <- !app_assoc).
      replace (length t + 1) with (length (t ++ nl)) in E
        by (rewrite length_app; simpl; lia).
      rewrite drop_app_length in E.
      destruct p as [|a p]; [done|]. simpl in E. cbn [forallb] in Hp.
      apply andb_true_iff in E as [E _]. apply Ascii.eqb_eq in E. subst a.
      apply andb_true_iff in Hp as [Hp _]. vm_compute in Hp. discriminate.
Qed.

Lemma updatedContent_enriched (templateContent : str)
  (a b : CanvasAssignment num) :
  includes templateContent (lit detailsHeading) = false ->
  dollar_free (detailsTemplate b) ->
  updatedContent (enrichedContent templateContent a) b
  = templateContent ++ nl ++ nl ++ detailsTemplate b.
Proof.
  intros Hfree Hplain. rewrite updatedContent_template by done.
  destruct (enrichedContent_heading templateContent a) as [rest ->].
  rewrite indexOf_after_break by done.
  replace (length templateContent + 2) with (length (templateContent ++ nl ++ nl))
    by (rewrite !length_app; simpl; lia).
  rewrite take_app_length. by rewrite <- !app_assoc.
Qed.

(** X21: updating the content of a note as it was created: the template text
    stays, the section is the one of the update.  (The template has no
    heading of its own; the description and the link of the update are free
    of dollar signs.) *)
Theorem updatedContent_created (templateContent : str)
  (a b : CanvasAssignment num) :
  includes templateContent (lit detailsHeading) = false ->
  dollar_free (a_description b) -> dollar_free (a_html_url b) ->
  updatedContent (enrichedContent templateContent a) b
  = templateContent ++ nl ++ nl ++ detailsTemplate b.
Proof.
  intros Hfree Hd Hu. apply updatedContent_enriched; [done|].
  by apply detailsTemplate_dollar_free.
Qed.

Lemma enrichedContent_full (templateContent : str) (a : CanvasAssignment num) :
  truthy (a_description a) = true -> truthy (a_html_url a) = true ->
  enrichedContent templateContent a
  = templateContent ++ nl ++ nl ++ detailsTemplate a.
Proof.
  intros Hd Hu. unfold enrichedContent, detailsTemplate. rewrite Hd, Hu.
  by rewrite <- !app_assoc.
Qed.

(** X22: a content update with the assignment a note was created for writes the
    text of the note as it was created: creation and update write the same
    section.  (The assignment has a description and a link, both free of
    dollar signs; the template has no heading of its own.) *)
Theorem update_of_created_note (templateContent : str) (a : CanvasAssignment num) :
  includes templateContent (lit detailsHeading) = false ->
  truthy (a_description a) = true -> truthy (a_html_url a) = true ->
  dollar_free (a_description a) -> dollar_free (a_html_url a) ->
  updatedContent (enrichedContent templateContent a) a
  = enrichedContent templateContent a.
Proof.
  intros Hfree Hd Hu Hpd Hpu.
  rewrite updatedContent_enriched;
    [|done|by apply detailsTemplate_dollar_free].
  by rewrite enrichedContent_full.
Qed.

End DetailsMore.

Lemma updatedContent_plain_witness :
  updatedContent essay_body essay
  = match indexOf essay_body (lit detailsHeading) with
    | Some n => take n essay_body ++ detailsTemplate essay
    | None => essay_body
    end.
Proof. apply (updatedContent_plain essay_body essay); reflexivity. Defined.

Lemma updatedContent_last_wins_witness :
  updatedContent (updatedContent essay_body lab) essay
  = updatedContent essay_body essay.
Proof. apply (updatedContent_last_wins essay_body lab essay); reflexivity. Defined.

Lemma updatedContent_created_witness :
  updatedContent (enrichedContent essay_front lab) essay
  = essay_front ++ nl ++ nl ++ detailsTemplate essay.
Proof. apply (updatedContent_created essay_front lab essay); reflexivity. Defined.

Lemma update_of_created_note_witness :
  updatedContent (enrichedContent essay_front essay) essay
  = enrichedContent essay_front essay.
Proof. apply (update_of_created_note essay_front essay); reflexivity. Defined.

(** A dollar sign in the description: the note as created keeps the two
    signs, the update writes one; and without a description the update
    writes a heading that the creation leaves out. *)
Example update_differs_from_creation :
  let a := with_description (lit "a$$b") essay in
  let b := with_description [] essay in
  includes (enrichedContent essay_front a) (lit "a$$b") = true
  /\ includes (updatedContent (enrichedContent essay_front a) a) (lit "a$$b") = false
  /\ includes (updatedContent (enrichedContent essay_front a) a) (lit "a$b") = true
  /\ includes (enrichedContent essay_front b) (lit "### Description") = false
  /\ includes (updatedContent (enrichedContent essay_front b) b)
       (lit "### Description") = true.
Proof. repeat split; vm_compute; reflexivity. Qed.

(** ** The note that was created, looked up again *)
















Lemma lacks_not_in (x : ascii) (s : str) : lacks x s -> x ∉ s.
Proof.
  unfold lacks. induction s as [|c s IH]; [set_solver|]. cbn [forallb].
  intros Hs. apply andb_true_iff in Hs as [Hc Hs]. apply not_elem_of_cons.
  split; [|by apply IH]. intros ->. unfold chr in Hc.
  by rewrite Ascii.eqb_refl in Hc.
Qed.







Section CreatedMore.
Context {W Net num : Type} `{Obsidian W} `{JSNumber num}.
Variable settings : CanvasAssignmentProcessorSettings.


End CreatedMore.


(** An opening bracket that the name keeps pairs with the closing bracket of
    the first tag of the title: the note created is not the note looked for. *)
Example unclosed_bracket_not_found :
  let a := annotate (mock_course 4 "BIO110" "Biology Spring 2025")
             (mock_assignment 41 "Quiz [draft") in
  cleanAssignmentName (a_name a) = lit "Quiz [draft"
  /\ cleanAssignmentName (formattedTitleOf (W := memory) a) = lit "Quiz".
Proof. split; vm_compute; reflexivity. Qed.
